(** * ember: the structural deep-equality assertion [assertEquals]

    A shallow embedding of the JavaScript sources of the repository:

    - the cycle-guarded comparator [assertEquals] and its runner [runTest]
      (the source file that threads a [Map] of visited objects), embedded
      at top level under the names the source uses;
    - the earlier comparator of [src/index.js], which has no identity
      short-circuit and no visited map, embedded in [Module Legacy].

    JavaScript values are modelled with an explicit heap: objects are
    reached through references, so that aliasing and reference cycles are
    what they are in the program.  The functions of the sources are
    written in a small state-and-exception monad; the recursion of
    [assertEquals] is driven by a fuel argument, and the development
    proves that a fuel larger than the size of the heap always suffices
    for the cycle-guarded comparator. *)

From Stdlib Require Import String Ascii List ZArith NArith PArith Lia Bool Arith.
From Stdlib Require Import QArith Qround Qabs.
From Stdlib Require Import Floats.SpecFloat.
From Stdlib Require Import DecimalString DecimalN.
Import ListNotations.

Close Scope Q_scope.
Local Open Scope list_scope.
Local Open Scope string_scope.

(* ================================================================= *)
(** ** Decimal numerals and small string helpers *)

(** Decimal digits of a natural number, as [String(n)] prints them. *)
Definition decimal (n : N) : string := NilZero.string_of_uint (N.to_uint n).

Definition zeros (n : nat) : string := string_of_list_ascii (repeat "0"%char n).

(** The double quote character, and a text between double quotes as the
    template literals of the sources write it. *)
Definition dquote : string := String (ascii_of_nat 34) EmptyString.

Definition quoted (s : string) : string := dquote ++ s ++ dquote.

(** [Contains needle hay]: [needle] occurs in [hay] as a substring. *)
Definition Contains (needle hay : string) : Prop :=
  exists pre post, hay = pre ++ needle ++ post.

(** The same as a test. *)
Fixpoint containsb (needle hay : string) : bool :=
  if String.prefix needle hay then true
  else match hay with
       | EmptyString => false
       | String _ rest => containsb needle rest
       end.

(** The property key under which an array keeps its element number [i]. *)
Definition key_of_nat (i : nat) : string := decimal (N.of_nat i).

(** A property key is an array index when it is the canonical decimal
    numeral of a natural number (["7"] is, ["07"] and ["x"] are not). *)
Definition index_of_key (key : string) : option nat :=
  match NilZero.uint_of_string key with
  | Some d =>
      let n := N.of_uint d in
      if String.eqb (decimal n) key then Some (N.to_nat n) else None
  | None => None
  end.

(* ================================================================= *)
(** ** Numbers

    A JavaScript number is an IEEE 754 binary64 value.  The standard
    library's [spec_float] is used with precision 53: zeros and
    infinities carry a sign, there is one NaN, and a finite value
    [S754_finite s m e] stands for [(-1)^s * m * 2^e]. *)

Module Number.

Definition number := spec_float.

Definition NaN : number := S754_nan.

(** Conversion of a non-negative integer.  Integers of at most 53 bits
    are exact; the mantissa is shifted to exactly 53 bits so that the
    representation is the canonical one.  Larger integers are rounded to
    nearest, ties to even. *)
Definition of_N (n : N) : number :=
  match n with
  | N0 => S754_zero false
  | Npos p =>
      let d := Z.pos (digits2_pos p) in
      if (d <=? 53)%Z
      then S754_finite false (Pos.shiftl p (Z.to_N (53 - d))) (d - 53)
      else binary_normalize 53 1024 (Z.pos p) 0 false
  end.

Definition of_nat (n : nat) : number := of_N (N.of_nat n).

(** Numeric comparison [x == y] of IEEE 754: NaN differs from
    everything, itself included, and the two zeros are equal. *)
Definition eqb (x y : number) : bool := SFeqb x y.

(** *** [Number::toString]

    ECMAScript prints a finite non-zero number from the integers
    [n], [k], [s] such that [k] is as small as possible,
    [10^(k-1) <= s < 10^k], and [s * 10^(n-k)] rounds to the number; among
    several [s] the one closest to the number is taken. *)

Local Open Scope Q_scope.

Definition Qlt_bool (a b : Q) : bool :=
  match a ?= b with Lt => true | _ => false end.

(** The reals that round to [m * 2^e]: half way to the neighbours on each
    side, the end points included when the mantissa is even. *)
Definition half_gap_down (m : positive) (e : Z) : Q :=
  if (Pos.eqb m (2 ^ 52)%positive && (-1074 <? e)%Z)%bool
  then 2 ^ (e - 2) else 2 ^ (e - 1).

Definition half_gap_up (e : Z) : Q := 2 ^ (e - 1).

Definition rounds_to (m : positive) (e : Z) (q : Q) : bool :=
  let x := inject_Z (Z.pos m) * 2 ^ e in
  let lo := x - half_gap_down m e in
  let hi := x + half_gap_up e in
  match lo ?= q, q ?= hi with
  | Lt, Lt => true
  | Eq, Lt | Lt, Eq => Z.even (Z.pos m)
  | _, _ => false
  end.

(** The least [n] from [start] on with [x < 10^n]. *)
Fixpoint decade_from (fuel : nat) (n : Z) (x : Q) : Z :=
  match fuel with
  | O => n
  | S fuel' => if Qlt_bool x (10 ^ n) then n else decade_from fuel' (n + 1)%Z x
  end.

(** The [k]-digit candidates [(s, n)] around [x] in the decade [n]. *)
Definition candidates (m : positive) (e : Z) (k n : Z) : list (Z * Z) :=
  let x := inject_Z (Z.pos m) * 2 ^ e in
  let scale := 10 ^ (n - k) in
  let s1 := Qfloor (x / scale) in
  filter (fun c : Z * Z =>
            ((10 ^ (k - 1) <=? fst c)%Z && (fst c <? 10 ^ k)%Z
             && rounds_to m e (inject_Z (fst c) * scale))%bool)
         [(s1, n); ((s1 + 1)%Z, n)].

(** Of two candidates the one closer to [x]; the even one on a tie. *)
Definition closer (x : Q) (k : Z) (c1 c2 : Z * Z) : Z * Z :=
  let dist c := Qabs (inject_Z (fst c) * 10 ^ (snd c - k) - x) in
  match dist c1 ?= dist c2 with
  | Lt => c1
  | Gt => c2
  | Eq => if Z.even (fst c1) then c1 else c2
  end.

(** Search for the shortest digit string, [k = 1, 2, ...]; seventeen
    digits always identify a binary64 value. *)
Fixpoint shortest_from (fuel : nat) (m : positive) (e : Z) (n0 k : Z)
  : Z * Z * Z :=
  let x := inject_Z (Z.pos m) * 2 ^ e in
  match fuel with
  | O => (n0, k, Qfloor (x / 10 ^ (n0 - k)))
  | S fuel' =>
      match (candidates m e k n0 ++ candidates m e k (n0 + 1)%Z)%list with
      | [] => shortest_from fuel' m e n0 (k + 1)%Z
      | c :: cs => let best := fold_left (closer x k) cs c in
                   (snd best, k, fst best)
      end
  end.

Definition shortest (m : positive) (e : Z) : Z * Z * Z :=
  let x := inject_Z (Z.pos m) * 2 ^ e in
  shortest_from 17 m e (decade_from 700 (-330) x) 1.

Local Close Scope Q_scope.

(** The layout of the digits [s] (of length [k]) at decimal point
    position [n], steps 6 to 10 of [Number::toString]. *)
Definition layout (n k s : Z) : string :=
  let digits := decimal (Z.to_N s) in
  let kn := Z.to_nat k in
  if ((k <=? n) && (n <=? 21))%Z%bool then
    digits ++ zeros (Z.to_nat (n - k))
  else if ((0 <? n) && (n <=? 21))%Z%bool then
    substring 0 (Z.to_nat n) digits ++ "." ++
    substring (Z.to_nat n) (kn - Z.to_nat n) digits
  else if ((-6 <? n) && (n <=? 0))%Z%bool then
    "0." ++ zeros (Z.to_nat (- n)) ++ digits
  else
    let ex := (n - 1)%Z in
    let sign := if (ex <? 0)%Z then "-" else "+" in
    let mant := if (k =? 1)%Z then digits
                else substring 0 1 digits ++ "." ++ substring 1 (kn - 1) digits in
    mant ++ "e" ++ sign ++ decimal (Z.abs_N ex).

(** The integer a finite value stands for, when it is one. *)
Definition integer_value (m : positive) (e : Z) : option N :=
  match e with
  | Z0 => Some (Npos m)
  | Zpos p => Some (N.shiftl (Npos m) (Npos p))
  | Zneg p =>
      if N.eqb (N.land (Npos m) (N.ones (Npos p))) 0
      then Some (N.shiftr (Npos m) (Npos p)) else None
  end.

(** Integers below [2^53] are printed digit for digit: consecutive
    integers are distinct binary64 values there, so no shorter numeral
    rounds to them.  Every other finite value goes through [shortest]. *)
Definition finite_toString (m : positive) (e : Z) : string :=
  match integer_value m e with
  | Some z =>
      if (z <? 2 ^ 53)%N then decimal z
      else let '(n, k, s) := shortest m e in layout n k s
  | None => let '(n, k, s) := shortest m e in layout n k s
  end.

Definition toString (x : number) : string :=
  match x with
  | S754_nan => "NaN"
  | S754_zero _ => "0"
  | S754_infinity s => if s then "-Infinity" else "Infinity"
  | S754_finite s m e => (if s then "-" else "") ++ finite_toString m e
  end.

End Number.

(* ================================================================= *)
(** ** Values, objects and the heap

    The values are the ones of the specification's data model: the
    primitives undefined, null, booleans, numbers and strings, and
    references to composites.  A composite lives in the heap and is
    either a plain object, given by its own enumerable string-keyed data
    properties in the order [for ... in] and [Object.keys] enumerate
    them, or a dense array, given by its elements.  Functions, symbols,
    accessors, array holes and properties inherited from a prototype are
    outside the model: an object is read through its own properties only.
    This is what the source does on objects none of whose own keys is the
    name of a member of [Object.prototype] ([plain_heap] below); the
    statements that read a property of one object under the key of
    another, or print an object, say so. *)

Definition number : Type := Number.number.

Definition loc := nat.

Inductive value : Type :=
| VUndefined
| VNull
| VBoolean (b : bool)
| VNumber (x : number)
| VString (s : string)
| VRef (l : loc).

Inductive object : Type :=
| OObject (props : list (string * value))
| OArray (elems : list value).

Definition heap := list object.

(** A reference that the heap does not define cannot be made by a
    program; it is read as an object without properties. *)
Definition deref (h : heap) (l : loc) : object := nth l h (OObject []).

(** [typeof v] *)
Definition typeof (v : value) : string :=
  match v with
  | VUndefined => "undefined"
  | VNull => "object"
  | VBoolean _ => "boolean"
  | VNumber _ => "number"
  | VString _ => "string"
  | VRef _ => "object"
  end.

(** [x === y]: strict equality; references are compared by identity. *)
Definition strict_eq (x y : value) : bool :=
  match x, y with
  | VUndefined, VUndefined => true
  | VNull, VNull => true
  | VBoolean a, VBoolean b => Bool.eqb a b
  | VNumber a, VNumber b => Number.eqb a b
  | VString a, VString b => String.eqb a b
  | VRef a, VRef b => Nat.eqb a b
  | _, _ => false
  end.

Notation "x === y" := (strict_eq x y) (at level 68, no associativity).
Notation "x !== y" := (negb (strict_eq x y)) (at level 68, no associativity).

(** SameValueZero, the equality of [Map] keys: strict equality, except
    that NaN is the same as NaN. *)
Definition sameValueZero (x y : value) : bool :=
  match x, y with
  | VNumber S754_nan, VNumber S754_nan => true
  | _, _ => x === y
  end.

(** [Array.isArray(v)] *)
Definition Array_isArray (h : heap) (v : value) : bool :=
  match v with
  | VRef l => match deref h l with OArray _ => true | OObject _ => false end
  | _ => false
  end.

(** The keys [for (key in v)] enumerates, which for the objects of the
    model are also the keys of [Object.keys(v)].  Enumerating null or
    undefined runs no iteration. *)
Definition forInKeys (h : heap) (v : value) : list string :=
  match v with
  | VRef l =>
      match deref h l with
      | OObject props => map fst props
      | OArray elems => map key_of_nat (seq 0 (length elems))
      end
  | _ => []
  end.

Definition Object_keys (h : heap) (v : value) : list string := forInKeys h v.

Fixpoint lookupProp (key : string) (props : list (string * value)) : value :=
  match props with
  | [] => VUndefined
  | (k, v) :: rest => if String.eqb k key then v else lookupProp key rest
  end.

(** [v[key]] on a reference: an own property, an array element or the
    array length; a property that is not there reads as undefined.
    The members an object inherits from [Object.prototype] (constructor,
    toString, valueOf, ...) are not found: [getProp] is [v[key]] for the
    keys that are not [inherited_name]s.
    The comparators only read properties of references (both operands are
    [typeof] "object" and not null where they do); on the other values
    [getProp] yields undefined, which is also what the optional chaining
    [v?.length] yields on null. *)
Definition getProp (h : heap) (v : value) (key : string) : value :=
  match v with
  | VRef l =>
      match deref h l with
      | OObject props => lookupProp key props
      | OArray elems =>
          if String.eqb key "length" then VNumber (Number.of_nat (length elems))
          else match index_of_key key with
               | Some i => nth i elems VUndefined
               | None => VUndefined
               end
      end
  | _ => VUndefined
  end.

(** [String(v)], as a template literal applies it.  A plain object
    prints as "[object Object]", which is what [Object.prototype.toString]
    yields for an object without a [toString] or [valueOf] of its own
    ([own_keys_plain]); an array prints its elements joined by commas,
    null and undefined elements as the empty string, and an array met
    again while it is being joined as the empty string too. *)
Fixpoint toStringFuel (fuel : nat) (h : heap) (joining : list loc) (v : value)
  : string :=
  match v with
  | VUndefined => "undefined"
  | VNull => "null"
  | VBoolean b => if b then "true" else "false"
  | VNumber x => Number.toString x
  | VString s => s
  | VRef l =>
      match deref h l with
      | OObject _ => "[object Object]"
      | OArray elems =>
          if existsb (Nat.eqb l) joining then ""
          else match fuel with
               | O => ""
               | S fuel' =>
                   String.concat ","
                     (map (fun x => match x with
                                    | VUndefined | VNull => ""
                                    | _ => toStringFuel fuel' h (l :: joining) x
                                    end) elems)
               end
      end
  end.

Definition ToString (h : heap) (v : value) : string :=
  toStringFuel (S (length h)) h [] v.

(** [keys.join(".")] *)
Definition join_dot (keys : list string) : string := String.concat "." keys.

(* ================================================================= *)
(** ** Failures

    The sources signal a difference by throwing an [Error] or a
    [TypeError] with a message.  Each [throw] of the comparator is one
    failure kind of the specification; the kind is recorded with the
    exception so that statements can name it. *)

Inductive ErrorClass : Type := Error | TypeError.

Inductive Kind : Type :=
| TypeMismatch      (* [typeof] of the two sides differs *)
| ShapeMismatch     (* array against object, or null against non-null *)
| ValueMismatch     (* two primitives that are not strictly equal *)
| LengthMismatch    (* [length] of the two sides differs *)
| MissingKey        (* key scan: a key of expected reads undefined in actual *)
| UnexpectedKey     (* key scan: a key of actual reads undefined in expected *)
| MissingValue.     (* descent: the value in actual is undefined *)

Record Exn : Type := mkExn
  { exn_class : ErrorClass; exn_kind : Kind; exn_message : string }.

(* ================================================================= *)
(** ** A state and exception monad

    A computation takes the current state and either runs out of fuel
    ([None]), returns a value with the new state, or throws. *)

Inductive outcome (St A : Type) : Type :=
| Returned (a : A) (st : St)
| Thrown (e : Exn).

Arguments Returned {St A} a st.
Arguments Thrown {St A} e.

Definition M (St A : Type) : Type := St -> option (outcome St A).

Definition ret {St A} (a : A) : M St A := fun st => Some (Returned a st).

Definition bind {St A B} (c : M St A) (k : A -> M St B) : M St B :=
  fun st =>
    match c st with
    | None => None
    | Some (Thrown e) => Some (Thrown e)
    | Some (Returned a st') => k a st'
    end.

Definition throw {St A} (cls : ErrorClass) (kind : Kind) (msg : string)
  : M St A :=
  fun _ => Some (Thrown (mkExn cls kind msg)).

Definition out_of_fuel {St A} : M St A := fun _ => None.

(** [try { c } catch (error) { handler error }]; the state is the one at
    the entry of the block, the mutations of an aborted [c] being
    unobservable once its objects are dropped. *)
Definition tryCatch {St A} (c : M St A) (handler : Exn -> M St A) : M St A :=
  fun st =>
    match c st with
    | None => None
    | Some (Thrown e) => handler e st
    | Some (Returned a st') => Some (Returned a st')
    end.

Declare Scope monad_scope.
Delimit Scope monad_scope with monad.
Notation "x <- c ;; k" := (bind c (fun x => k))
  (at level 61, c at next level, right associativity) : monad_scope.
Notation "c ;; k" := (bind c (fun _ => k))
  (at level 61, right associativity) : monad_scope.
Local Open Scope monad_scope.

(** [if (c) throw ...] *)
Definition throw_if {St} (c : bool) (cls : ErrorClass) (kind : Kind)
  (msg : string) : M St unit :=
  if c then throw cls kind msg else ret tt.

(** [for (key in o) body] over the enumerated keys. *)
Fixpoint forIn {St} (keys : list string) (body : string -> M St unit)
  : M St unit :=
  match keys with
  | [] => ret tt
  | key :: rest => body key ;; forIn rest body
  end.

(* ================================================================= *)
(** ** The visited map

    [new Map()] keyed by values; insertion order is kept as [Map] keeps
    it, although the comparator only asks [has]. *)

Definition Map := list (value * value).

Definition new_Map : Map := [].

Definition Map_has (key : value) (map : Map) : bool :=
  existsb (fun entry => sameValueZero (fst entry) key) map.

Fixpoint Map_set (key v : value) (map : Map) : Map :=
  match map with
  | [] => [(key, v)]
  | (k, old) :: rest =>
      if sameValueZero k key then (k, v) :: rest
      else (k, old) :: Map_set key v rest
  end.

Definition map_has (key : value) : M Map bool :=
  fun map => Some (Returned (Map_has key map) map).

Definition map_set (key v : value) : M Map unit :=
  fun map => Some (Returned tt (Map_set key v map)).

(** [extends map map']: every key of [map] is a key of [map']. *)
Definition extends (map map' : Map) : Prop :=
  forall key, Map_has key map = true -> Map_has key map' = true.

(** The objects of the heap that are not yet keys of the map; their
    number bounds the depth the comparator can still descend to. *)
Definition unvisited (h : heap) (map : Map) : list loc :=
  filter (fun l => negb (Map_has (VRef l) map)) (seq 0 (length h)).

(* ================================================================= *)
(** ** The cycle-guarded comparator *)

(** [objType] names a composite for the messages. *)
Definition objType (h : heap) (obj : value) : string :=
  if Array_isArray h obj then "Array"
  else if obj === VNull then "Null" else "Object".

(** [assertEquals(message, expected, actual, keyTrace, map)].  The
    mutable [map] is the state of the monad.  [assertEqualsBody] is the
    body of the function, [recur] standing for the function itself in
    the recursive call.  The loop variable of the two key scans is not
    declared in the source; the script is read as a non-strict one, where
    the assignment makes a global variable and the loops run. *)
Definition assertEqualsBody
  (recur : value -> value -> list string -> M Map string)
  (h : heap) (message : string) (expected actual : value)
  (keyTrace : list string) : M Map string :=
  (* Simple equality check *)
  if expected === actual then ret (message ++ ": Pass!") else
  (* Prevent recursive object definitions from causing infinite call stack *)
  seenExpected <- map_has expected ;;
  seenActual <- map_has actual ;;
  if seenExpected || seenActual then ret (message ++ ": Pass!") else
  map_set expected actual ;;
  (* Simple type checking *)
  throw_if (negb (String.eqb (typeof expected) (typeof actual)))
    TypeError TypeMismatch
    (message ++ ": Expected type " ++ quoted (typeof expected)
             ++ " but found type " ++ quoted (typeof actual)) ;;
  (* Checking object vs array types, as arrays have type "object" in JS *)
  throw_if (negb (Bool.eqb (Array_isArray h expected) (Array_isArray h actual)))
    TypeError ShapeMismatch
    (message ++ ": Expected type " ++ quoted (objType h expected)
             ++ " but found type " ++ quoted (objType h actual)) ;;
  (* For anything but objects (incl arrays), equality operator is sufficient *)
  (if negb (String.eqb (typeof actual) "object") then
     throw_if (expected !== actual) Error ValueMismatch
       (message ++ ": Expected " ++ quoted (ToString h expected)
                ++ " but found " ++ quoted (ToString h actual))
   else
     (* Only objects, arrays, and null reach here *)
     (if (expected === VNull) || (actual === VNull) then
        throw_if (expected !== actual) TypeError ShapeMismatch
          (message ++ ": Expected type " ++ objType h expected
                   ++ " but found " ++ objType h actual)
      else ret tt) ;;
     (* Arrays with different number of keys are handled here *)
     throw_if (getProp h expected "length" !== getProp h actual "length")
       Error LengthMismatch
       (message ++ ": Expected array length "
                ++ quoted (ToString h (getProp h expected "length"))
                ++ " but found length "
                ++ quoted (ToString h (getProp h actual "length"))) ;;
     (* Objects with different number of keys are handled here *)
     let expectedKeys := Object_keys h expected in
     let actualKeys := Object_keys h actual in
     (if negb (Nat.eqb (length expectedKeys) (length actualKeys)) then
        if Nat.ltb (length actualKeys) (length expectedKeys) then
          (* Check every key in expected until we find the one that is
             missing from actual *)
          forIn (forInKeys h expected) (fun key =>
            throw_if (getProp h actual key === VUndefined) Error MissingKey
              (message ++ ": Expected "
                       ++ join_dot (keyTrace ++ [key])%list
                       ++ " but was not found"))
        else
          (* Check every key in actual until we find the one that we did
             not expect *)
          forIn (forInKeys h actual) (fun key =>
            throw_if (getProp h expected key === VUndefined)
              Error UnexpectedKey
              (message ++ ": Found unexpected "
                       ++ join_dot (keyTrace ++ [key])%list))
      else ret tt) ;;
     (* Only arrays of same length or objects with same no. of keys reach here *)
     forIn (forInKeys h expected) (fun key =>
       let ek := getProp h expected key in
       let ak := getProp h actual key in
       if String.eqb (typeof ek) "object" || String.eqb (typeof ak) "object"
       then
         recur ek ak (keyTrace ++ [key])%list ;; ret tt
       else if ek !== ak then
         (* Only non-objects should reach here *)
         if ak === VUndefined then
           throw Error MissingValue
             (message ++ ": Expected "
                      ++ join_dot (keyTrace ++ [key])%list
                      ++ " but was not found")
         else
           throw Error ValueMismatch
             (message ++ ": Expected "
                      ++ join_dot (keyTrace ++ [key])%list
                      ++ " " ++ quoted (ToString h ek)
                      ++ " but found " ++ quoted (ToString h ak))
       else ret tt)) ;;
  ret (message ++ ": Pass!").

(** The function: [fuel] bounds the depth of the recursion, and a call
    that would go deeper has no outcome.  [message] and the shared [map]
    are passed on unchanged, as in the source. *)
Fixpoint assertEquals (fuel : nat) (h : heap) (message : string)
  (expected actual : value) (keyTrace : list string) {struct fuel}
  : M Map string :=
  match fuel with
  | O => out_of_fuel
  | S fuel' =>
      assertEqualsBody (assertEquals fuel' h message)
        h message expected actual keyTrace
  end.

(** A test case [{ message, expected, actual }]. *)
Record TestCase : Type := mkTestCase
  { message : string; expected : value; actual : value }.

(** [runTest]: the call leaves [keyTrace] and [map] to their defaults,
    the empty trace and a fresh map. *)
Definition runTest (fuel : nat) (h : heap) (testCase : TestCase)
  : M Map string :=
  tryCatch
    (assertEquals fuel h (message testCase) (expected testCase)
                  (actual testCase) [])
    (fun error => ret (exn_message error)).

(* ================================================================= *)
(** ** The earlier comparator of [src/index.js]

    No identity short-circuit and no visited map: the comparator keeps
    no state, and [keyTrace] is a string that the top-level call leaves
    undefined.  Its helper [deepEquals] is never called and is not
    embedded. *)

Module Legacy.

(** [keyTrace] is a string or, at the top level, undefined. *)
Definition traceString (keyTrace : option string) : string :=
  match keyTrace with Some s => s | None => "undefined" end.

(** [keyTrace ? keyTrace + "." : ""]: undefined and the empty string are
    falsy. *)
Definition tracePrefix (keyTrace : option string) : string :=
  match keyTrace with
  | Some (String c s) => String c s ++ "."
  | _ => EmptyString
  end.

Definition assertEqualsBody
  (recur : value -> value -> option string -> M unit string)
  (h : heap) (message : string) (expected actual : value)
  (keyTrace : option string) : M unit string :=
  (* Start with simple type checking *)
  throw_if (negb (String.eqb (typeof expected) (typeof actual)))
    TypeError TypeMismatch
    (message ++ ": Expected type " ++ quoted (typeof expected)
             ++ " but found type " ++ quoted (typeof actual)) ;;
  (* Checking object vs array types, as arrays have type "object" in JS *)
  throw_if (negb (Bool.eqb (Array_isArray h expected) (Array_isArray h actual)))
    TypeError ShapeMismatch
    (message ++ ": Expected type " ++ quoted (objType h expected)
             ++ " but found type " ++ quoted (objType h actual)) ;;
  (if negb (String.eqb (typeof actual) "object") then
     throw_if (expected !== actual) Error ValueMismatch
       (message ++ ": Expected " ++ quoted (ToString h expected)
                ++ " but found " ++ quoted (ToString h actual))
   else
     (* Only objects, arrays, and null reach here *)
     (if (expected === VNull) || (actual === VNull) then
        throw_if (expected !== actual) Error ShapeMismatch
          (message ++ ": Expected type " ++ objType h expected
                   ++ " but found " ++ objType h actual)
      else ret tt) ;;
     throw_if (getProp h expected "length" !== getProp h actual "length")
       Error LengthMismatch
       (message ++ ": Expected array length "
                ++ quoted (ToString h (getProp h expected "length"))
                ++ " but found length "
                ++ quoted (ToString h (getProp h actual "length"))) ;;
     (* Only arrays of same length or objects with same no. of keys reach here *)
     forIn (forInKeys h expected) (fun key =>
       let ek := getProp h expected key in
       let ak := getProp h actual key in
       if String.eqb (typeof ek) "object" || String.eqb (typeof ak) "object"
       then
         recur ek ak (Some (tracePrefix keyTrace ++ key)) ;; ret tt
       else
         (* Only nested non-objects should reach here *)
         throw_if (ek !== ak) Error ValueMismatch
           (message ++ ": Expected " ++ traceString keyTrace ++ "." ++ key
                    ++ " " ++ quoted (ToString h ek)
                    ++ " but found " ++ quoted (ToString h ak)))) ;;
  ret (message ++ ": Pass! " ++ quoted (ToString h expected)
               ++ " equals " ++ quoted (ToString h actual)).

Fixpoint assertEquals (fuel : nat) (h : heap) (message : string)
  (expected actual : value) (keyTrace : option string) {struct fuel}
  : M unit string :=
  match fuel with
  | O => out_of_fuel
  | S fuel' =>
      assertEqualsBody (assertEquals fuel' h message)
        h message expected actual keyTrace
  end.

(** [runTest] calls with three arguments: [keyTrace] is undefined. *)
Definition runTest (fuel : nat) (h : heap) (testCase : TestCase)
  : M unit string :=
  tryCatch
    (assertEquals fuel h (message testCase) (expected testCase)
                  (actual testCase) None)
    (fun error => ret (exn_message error)).

End Legacy.

(* ================================================================= *)
(** ** Notions used by the statements *)

(** The first of [keys] that reads undefined in [o]: the key at which a
    key scan of the comparator stops. *)
Fixpoint firstUndefined (h : heap) (o : value) (keys : list string)
  : option string :=
  match keys with
  | [] => None
  | key :: rest =>
      if getProp h o key === VUndefined then Some key
      else firstUndefined h o rest
  end.

(** The first of [keys] that is not among [others]: the first key
    present on one side and absent on the other. *)
Definition firstAbsent (others keys : list string) : option string :=
  find (fun key => negb (existsb (String.eqb key) others)) keys.

(** No property of the object has the value undefined. *)
Definition all_defined (props : list (string * value)) : bool :=
  forallb (fun p => negb (snd p === VUndefined)) props.

(** The references an object holds. *)
Definition refs_of (o : object) : list loc :=
  let values := match o with
                | OObject props => map snd props
                | OArray elems => elems
                end in
  flat_map (fun v => match v with VRef l => [l] | _ => [] end) values.

(** Every reference held by the object number [l] is larger than [l]: a
    heap laid out this way has no reference cycle. *)
Definition points_forward (h : heap) : bool :=
  forallb (fun lo => forallb (Nat.ltb (fst lo)) (refs_of (snd lo)))
          (combine (seq 0 (length h)) h).

(** The shape of an operand that is null or a composite, read off the
    heap. *)
Inductive has_shape (h : heap) : value -> string -> Prop :=
| shape_null : has_shape h VNull "Null"
| shape_array (l : loc) (elems : list value) :
    deref h l = OArray elems -> has_shape h (VRef l) "Array"
| shape_object (l : loc) (props : list (string * value)) :
    deref h l = OObject props -> has_shape h (VRef l) "Object".

(** The property names every object inherits from [Object.prototype]. *)
Definition Object_prototype_members : list string :=
  [ "constructor"; "hasOwnProperty"; "isPrototypeOf"; "propertyIsEnumerable";
    "toLocaleString"; "toString"; "valueOf"; "__proto__";
    "__defineGetter__"; "__defineSetter__";
    "__lookupGetter__"; "__lookupSetter__" ].

Definition inherited_name (key : string) : bool :=
  existsb (String.eqb key) Object_prototype_members.

(** No key of the list is the name of a member of [Object.prototype].
    Under such keys [o[key]] is an own property of [o] or undefined, as
    [getProp] has it. *)
Definition plain_keys (keys : list string) : bool :=
  forallb (fun key => negb (inherited_name key)) keys.

(** No own key of the composite is such a name: then the composite
    neither has a [toString] or [valueOf] of its own, and prints as
    [toStringFuel] has it. *)
Definition own_keys_plain (h : heap) (v : value) : bool :=
  plain_keys (forInKeys h v).

(** The same of every composite of the heap. *)
Definition plain_heap (h : heap) : bool :=
  forallb (fun l => own_keys_plain h (VRef l)) (seq 0 (length h)).

(* ================================================================= *)
(** ** The inputs of the scenarios *)

Definition num (n : nat) : value := VNumber (Number.of_nat n).

(** [a = {}; a.self = a] at 0 and [c = {}; c.self = c] at 1. *)
Definition heap_self : heap :=
  [ OObject [("self", VRef 0)];
    OObject [("self", VRef 1)] ].

(** [{a:1, b:{c:2}}] at 0 and [{a:1, b:{c:3}}] at 2. *)
Definition heap_nested : heap :=
  [ OObject [("a", num 1); ("b", VRef 1)];
    OObject [("c", num 2)];
    OObject [("a", num 1); ("b", VRef 3)];
    OObject [("c", num 3)] ].

(** [{}] at 0. *)
Definition heap_empty_object : heap := [ OObject [] ].

(** [["a","b"]] at 0 and [["a","b","c"]] at 1. *)
Definition heap_arrays : heap :=
  [ OArray [VString "a"; VString "b"];
    OArray [VString "a"; VString "b"; VString "c"] ].

(** [{a:'a'}] at 0 and [{a:'a', c:'c'}] at 1. *)
Definition heap_keys : heap :=
  [ OObject [("a", VString "a")];
    OObject [("a", VString "a"); ("c", VString "c")] ].

(** [['a']] at 0 and [{0: 'a'}] at 1. *)
Definition heap_array_object : heap :=
  [ OArray [VString "a"];
    OObject [("0", VString "a")] ].

(** [{a: undefined}] at 0 and [{a:1, b:2}] at 1. *)
Definition heap_undefined_key : heap :=
  [ OObject [("a", VUndefined)];
    OObject [("a", num 1); ("b", num 2)] ].

(** [{a:"x"}] at 0 and [{a:1}] at 1. *)
Definition heap_leaf_types : heap :=
  [ OObject [("a", VString "x")];
    OObject [("a", num 1)] ].

(** [{b:{c:1}}] at 0 and [{b:{c:{}}}] at 2. *)
Definition heap_deep_types : heap :=
  [ OObject [("b", VRef 1)];
    OObject [("c", num 1)];
    OObject [("b", VRef 3)];
    OObject [("c", VRef 4)];
    OObject [] ].

(** [s = {p:1}] at 1, [{x:s, y:s}] at 0, and [{x:{p:1}, y:{p:2}}] at 2. *)
Definition heap_shared : heap :=
  [ OObject [("x", VRef 1); ("y", VRef 1)];
    OObject [("p", num 1)];
    OObject [("x", VRef 3); ("y", VRef 4)];
    OObject [("p", num 1)];
    OObject [("p", num 2)] ].

(** The objects of [runAll]: [a = {self: a}] at 0, [b = {self: a}] at 1,
    [c = {self: c}] at 2, [d = {self: {self: a}}] at 3 and
    [e = {self: {self: b}}] at 5. *)
Definition heap_runAll : heap :=
  [ OObject [("self", VRef 0)];
    OObject [("self", VRef 0)];
    OObject [("self", VRef 2)];
    OObject [("self", VRef 4)];
    OObject [("self", VRef 0)];
    OObject [("self", VRef 6)];
    OObject [("self", VRef 1)] ].

(* ================================================================= *)
(** ** Notions used by the further properties *)

(** The first of [keys] at which the two composites hold values that are
    not strictly equal. *)
Definition firstDifferent (h : heap) (e a : value) (keys : list string)
  : option string :=
  find (fun key => getProp h e key !== getProp h a key) keys.

(** Neither of the two values at [key] has [typeof] "object": the
    descent compares them on the spot. *)
Definition leaf_at (h : heap) (e a : value) (key : string) : bool :=
  negb (String.eqb (typeof (getProp h e key)) "object"
        || String.eqb (typeof (getProp h a key)) "object").

(** The value reached from [v] by reading the keys of [path] in turn. *)
Definition descend (h : heap) (v : value) (path : list string) : value :=
  fold_left (getProp h) path v.

(** The comparison of [e] with [a] goes down along [path]: each key is a
    key of the composite of expected reached so far, and at each key one
    of the two values is a composite or null. *)
Fixpoint descends (h : heap) (e a : value) (path : list string) : Prop :=
  match path with
  | [] => True
  | key :: rest =>
      In key (forInKeys h e)
      /\ leaf_at h e a key = false
      /\ descends h (getProp h e key) (getProp h a key) rest
  end.

(** The exceptions of the comparator, one form for each [throw] of
    [assertEquals], each with what it tells about the pair [(e, a)] it
    arose at; [path] is the key trace of that pair. *)
Inductive failure_at (h : heap) (msg : string) (path : list string)
  (e a : value) : Exn -> Prop :=
| fail_typeof :
    String.eqb (typeof e) (typeof a) = false ->
    failure_at h msg path e a
      (mkExn TypeError TypeMismatch
         (msg ++ ": Expected type " ++ quoted (typeof e)
              ++ " but found type " ++ quoted (typeof a)))
| fail_isArray :
    String.eqb (typeof e) (typeof a) = true ->
    Bool.eqb (Array_isArray h e) (Array_isArray h a) = false ->
    failure_at h msg path e a
      (mkExn TypeError ShapeMismatch
         (msg ++ ": Expected type " ++ quoted (objType h e)
              ++ " but found type " ++ quoted (objType h a)))
| fail_primitive :
    String.eqb (typeof e) (typeof a) = true ->
    String.eqb (typeof a) "object" = false ->
    e === a = false ->
    failure_at h msg path e a
      (mkExn Error ValueMismatch
         (msg ++ ": Expected " ++ quoted (ToString h e)
              ++ " but found " ++ quoted (ToString h a)))
| fail_null :
    (e === VNull) || (a === VNull) = true ->
    e === a = false ->
    failure_at h msg path e a
      (mkExn TypeError ShapeMismatch
         (msg ++ ": Expected type " ++ objType h e
              ++ " but found " ++ objType h a))
| fail_length :
    getProp h e "length" === getProp h a "length" = false ->
    failure_at h msg path e a
      (mkExn Error LengthMismatch
         (msg ++ ": Expected array length "
              ++ quoted (ToString h (getProp h e "length"))
              ++ " but found length "
              ++ quoted (ToString h (getProp h a "length"))))
| fail_missing_key (key : string) :
    length (Object_keys h a) < length (Object_keys h e) ->
    In key (forInKeys h e) ->
    getProp h a key === VUndefined = true ->
    failure_at h msg path e a
      (mkExn Error MissingKey
         (msg ++ ": Expected " ++ join_dot (path ++ [key])%list
              ++ " but was not found"))
| fail_unexpected_key (key : string) :
    length (Object_keys h e) < length (Object_keys h a) ->
    In key (forInKeys h a) ->
    getProp h e key === VUndefined = true ->
    failure_at h msg path e a
      (mkExn Error UnexpectedKey
         (msg ++ ": Found unexpected " ++ join_dot (path ++ [key])%list))
| fail_missing_value (key : string) :
    In key (forInKeys h e) ->
    leaf_at h e a key = true ->
    getProp h e key === getProp h a key = false ->
    getProp h a key === VUndefined = true ->
    failure_at h msg path e a
      (mkExn Error MissingValue
         (msg ++ ": Expected " ++ join_dot (path ++ [key])%list
              ++ " but was not found"))
| fail_value (key : string) :
    In key (forInKeys h e) ->
    leaf_at h e a key = true ->
    getProp h e key === getProp h a key = false ->
    getProp h a key === VUndefined = false ->
    failure_at h msg path e a
      (mkExn Error ValueMismatch
         (msg ++ ": Expected " ++ join_dot (path ++ [key])%list
              ++ " " ++ quoted (ToString h (getProp h e key))
              ++ " but found " ++ quoted (ToString h (getProp h a key)))).

(** How far below an operand the earlier comparator can descend in a
    heap whose references point forward. *)
Definition remaining (h : heap) (v : value) : nat :=
  match v with
  | VRef l => length h - l
  | _ => 0
  end.

(** The first index at which two arrays hold elements that are not
    strictly equal. *)
Definition first_mismatch (xs ys : list value) : option nat :=
  find (fun i => nth i xs VUndefined !== nth i ys VUndefined)
       (seq 0 (length xs)).

(** The value is a primitive other than null: its [typeof] is not
    "object". *)
Definition primitive (v : value) : bool :=
  negb (String.eqb (typeof v) "object").

(** [["a","b","c"]] at 0, a copy at 1, and [["a","x","c"]] at 2. *)
Definition heap_equal_arrays : heap :=
  [ OArray [VString "a"; VString "b"; VString "c"];
    OArray [VString "a"; VString "b"; VString "c"];
    OArray [VString "a"; VString "x"; VString "c"] ].

(* ================================================================= *)
(** * Properties *)

(* ================================================================= *)
(** ** Numbers: equality, and the integers below [2^53] *)

Lemma SFeqb_refl (f : spec_float) : f <> S754_nan -> SFeqb f f = true.
Proof.
  destruct f as [s|s| |s m e]; intros Hn; try congruence; unfold SFeqb, SFcompare.
  - reflexivity.
  - destruct s; reflexivity.
  - destruct s; rewrite Z.compare_refl;
      change (Pos.compare_cont Eq m m) with (Pos.compare m m);
      rewrite Pos.compare_refl; reflexivity.
Qed.

Lemma SFeqb_finite_inv s1 m1 e1 s2 m2 e2 :
  SFeqb (S754_finite s1 m1 e1) (S754_finite s2 m2 e2) = true ->
  s1 = s2 /\ m1 = m2 /\ e1 = e2.
Proof.
  unfold SFeqb, SFcompare.
  destruct s1, s2; try discriminate;
    destruct (Z.compare_spec e1 e2); try discriminate;
    change (Pos.compare_cont Eq m1 m2) with (Pos.compare m1 m2);
    destruct (Pos.compare_spec m1 m2); try discriminate; auto.
Qed.

Lemma digits2_pos_lower (p : positive) :
  (2 ^ (Z.pos (digits2_pos p) - 1) <= Z.pos p)%Z.
Proof.
  induction p as [p IH|p IH|]; cbn [digits2_pos].
  - rewrite Pos2Z.inj_succ.
    replace (Z.succ (Z.pos (digits2_pos p)) - 1)%Z
      with (Z.succ (Z.pos (digits2_pos p) - 1))%Z by lia.
    rewrite Z.pow_succ_r by lia. lia.
  - rewrite Pos2Z.inj_succ.
    replace (Z.succ (Z.pos (digits2_pos p)) - 1)%Z
      with (Z.succ (Z.pos (digits2_pos p) - 1))%Z by lia.
    rewrite Z.pow_succ_r by lia. lia.
  - simpl. lia.
Qed.

Lemma digits2_pos_small (p : positive) :
  (N.pos p < 2 ^ 53)%N -> (Z.pos (digits2_pos p) <=? 53)%Z = true.
Proof.
  intros Hp. apply Z.leb_le.
  destruct (Z_le_gt_dec (Z.pos (digits2_pos p)) 53) as [|Hgt]; [assumption|].
  exfalso. pose proof (digits2_pos_lower p) as Hl.
  assert (2 ^ 53 <= 2 ^ (Z.pos (digits2_pos p) - 1))%Z
    by (apply Z.pow_le_mono_r; lia).
  assert (Z.pos p < 2 ^ 53)%Z.
  { change (Z.pos p) with (Z.of_N (N.pos p)).
    change (2 ^ 53)%Z with (Z.of_N (2 ^ 53)%N). lia. }
  lia.
Qed.

Lemma of_N_small (p : positive) :
  (N.pos p < 2 ^ 53)%N ->
  Number.of_N (N.pos p) =
  S754_finite false
    (Pos.shiftl p (Z.to_N (53 - Z.pos (digits2_pos p))))
    (Z.pos (digits2_pos p) - 53).
Proof.
  intros Hp. unfold Number.of_N. cbv zeta.
  rewrite (digits2_pos_small p Hp). reflexivity.
Qed.

Lemma Pos_shiftl_inj (p q : positive) (k : N) :
  Pos.shiftl p k = Pos.shiftl q k -> p = q.
Proof.
  intros H.
  assert (Hn : N.shiftl (N.pos p) k = N.shiftl (N.pos q) k)
    by (cbn [N.shiftl]; now rewrite H).
  rewrite !N.shiftl_mul_pow2 in Hn.
  apply N.mul_cancel_r in Hn; [congruence|].
  apply N.pow_nonzero. discriminate.
Qed.

Lemma of_N_eqb (a b : N) :
  (a < 2 ^ 53)%N -> (b < 2 ^ 53)%N ->
  Number.eqb (Number.of_N a) (Number.of_N b) = N.eqb a b.
Proof.
  intros Ha Hb. unfold Number.eqb.
  destruct a as [|p], b as [|q].
  - reflexivity.
  - rewrite (of_N_small q Hb). reflexivity.
  - rewrite (of_N_small p Ha). reflexivity.
  - destruct (N.eqb_spec (N.pos p) (N.pos q)) as [E|N].
    + rewrite E. rewrite (of_N_small q Hb). apply SFeqb_refl. discriminate.
    + rewrite (of_N_small p Ha), (of_N_small q Hb).
      destruct (SFeqb _ _) eqn:E; [|reflexivity].
      apply SFeqb_finite_inv in E. destruct E as (_ & Hm & He).
      assert (Hd : digits2_pos p = digits2_pos q) by lia.
      rewrite Hd in Hm. apply Pos_shiftl_inj in Hm. congruence.
Qed.

Lemma integer_value_of_N (p : positive) :
  (N.pos p < 2 ^ 53)%N ->
  Number.integer_value
    (Pos.shiftl p (Z.to_N (53 - Z.pos (digits2_pos p))))
    (Z.pos (digits2_pos p) - 53) = Some (N.pos p).
Proof.
  intros Hp. pose proof (digits2_pos_small p Hp) as Hd. apply Z.leb_le in Hd.
  unfold Number.integer_value.
  destruct (Z.pos (digits2_pos p) - 53)%Z as [|k|k] eqn:E; try lia.
  - replace (53 - Z.pos (digits2_pos p))%Z with 0%Z by lia. reflexivity.
  - replace (53 - Z.pos (digits2_pos p))%Z with (Z.pos k) by lia.
    cbn [Z.to_N].
    change (N.pos (Pos.shiftl p (N.pos k))) with (N.shiftl (N.pos p) (N.pos k)).
    rewrite N.land_ones, N.shiftl_mul_pow2, N.Div0.mod_mul.
    cbn [N.eqb]. rewrite <- N.shiftl_mul_pow2.
    rewrite N.shiftr_shiftl_l by lia. rewrite N.sub_diag. reflexivity.
Qed.

Lemma toString_of_N (n : N) :
  (n < 2 ^ 53)%N -> Number.toString (Number.of_N n) = decimal n.
Proof.
  intros Hn. destruct n as [|p]; [reflexivity|].
  rewrite (of_N_small p Hn). unfold Number.toString, Number.finite_toString.
  rewrite (integer_value_of_N p Hn).
  apply N.ltb_lt in Hn. rewrite Hn. reflexivity.
Qed.

(* ================================================================= *)
(** ** Strict equality and [typeof] *)

Lemma strict_eq_refl (x : value) : x <> VNumber Number.NaN -> x === x = true.
Proof.
  destruct x as [| |b|f|s|l]; intros Hx; cbn [strict_eq].
  - reflexivity.
  - reflexivity.
  - apply Bool.eqb_reflx.
  - apply SFeqb_refl. intros E. apply Hx. now rewrite E.
  - apply String.eqb_refl.
  - apply Nat.eqb_refl.
Qed.

Lemma strict_eq_typeof (x y : value) : x === y = true -> typeof x = typeof y.
Proof. destruct x, y; cbn; congruence. Qed.

Lemma typeof_differs_strict_eq (x y : value) :
  typeof x <> typeof y -> x === y = false.
Proof.
  intros H. destruct (x === y) eqn:E; [|reflexivity].
  now apply strict_eq_typeof in E.
Qed.

Lemma sameValueZero_refl (x : value) : sameValueZero x x = true.
Proof.
  destruct x as [| |b|f|s|l]; try (apply strict_eq_refl; discriminate).
  destruct f; try reflexivity; cbn [sameValueZero];
    apply strict_eq_refl; discriminate.
Qed.

(** A value whose [typeof] is "object" is null or a reference. *)
Lemma typeof_object_inv (v : value) :
  String.eqb (typeof v) "object" = true -> v = VNull \/ exists l, v = VRef l.
Proof. destruct v; cbn; try discriminate; eauto. Qed.

(* ================================================================= *)
(** ** The monad and the [for ... in] loop *)

Lemma bind_returned {St A B} (c : M St A) (k : A -> M St B) st a st' :
  c st = Some (Returned a st') -> bind c k st = k a st'.
Proof. unfold bind. now intros ->. Qed.

Lemma bind_thrown {St A B} (c : M St A) (k : A -> M St B) st e :
  c st = Some (Thrown e) -> bind c k st = Some (Thrown e).
Proof. unfold bind. now intros ->. Qed.

Lemma bind_inv {St A B} (c : M St A) (k : A -> M St B) st r :
  bind c k st = Some r ->
  (exists e, c st = Some (Thrown e) /\ r = Thrown e) \/
  (exists a st', c st = Some (Returned a st') /\ k a st' = Some r).
Proof.
  unfold bind. destruct (c st) as [[a st'|e]|]; intros H.
  - right. eauto.
  - left. exists e. split; congruence.
  - discriminate.
Qed.

Lemma throw_if_returned {St} c cls kind msg (st : St) u st' :
  throw_if c cls kind msg st = Some (Returned u st') -> c = false /\ st' = st.
Proof. destruct c; cbn; intros H; inversion H; auto. Qed.

(** A loop whose iterations all return runs to its end and leaves the
    state that the iterations leave in turn; an invariant of the
    iterations is an invariant of the loop. *)
Lemma forIn_invariant {St} (P : St -> Prop) keys (body : string -> M St unit) :
  (forall key st u st', In key keys -> P st ->
     body key st = Some (Returned u st') -> P st') ->
  forall st u st', P st -> forIn keys body st = Some (Returned u st') -> P st'.
Proof.
  induction keys as [|key rest IH]; intros Hbody st u st' HP Hrun.
  - cbn in Hrun. inversion Hrun; subst. exact HP.
  - cbn [forIn] in Hrun. apply bind_inv in Hrun.
    destruct Hrun as [(e & _ & He)|(a & st1 & Hc & Hk)]; [discriminate|].
    apply (IH (fun k s v s' Hin => Hbody k s v s' (or_intror Hin)) st1 u st').
    + apply (Hbody key st a st1); [now left|assumption|assumption].
    + exact Hk.
Qed.

(** A loop has an outcome when each iteration has one from every state
    that satisfies an invariant of the iterations. *)
Lemma forIn_has_outcome {St} (P : St -> Prop) keys (body : string -> M St unit) :
  (forall key st, In key keys -> P st ->
     (exists e, body key st = Some (Thrown e)) \/
     (exists u st', body key st = Some (Returned u st') /\ P st')) ->
  forall st, P st -> forIn keys body st <> None.
Proof.
  induction keys as [|key rest IH]; intros Hbody st HP.
  - discriminate.
  - cbn [forIn].
    destruct (Hbody key st (or_introl eq_refl) HP)
      as [(e & He)|(u & st' & Hr & HP')].
    + rewrite (bind_thrown _ _ _ _ He). discriminate.
    + rewrite (bind_returned _ _ _ _ _ Hr).
      apply IH; [|exact HP'].
      intros k s Hin. apply Hbody. now right.
Qed.

(** Two loop bodies of which the second has every outcome of the first
    give loops with the same property. *)
Lemma forIn_outcome_mono {St} keys (body1 body2 : string -> M St unit) :
  (forall key st r, body1 key st = Some r -> body2 key st = Some r) ->
  forall st r, forIn keys body1 st = Some r -> forIn keys body2 st = Some r.
Proof.
  intros Hbody. induction keys as [|key rest IH]; intros st r H.
  - exact H.
  - cbn [forIn] in *. apply bind_inv in H.
    destruct H as [(e & He & ->)|(a & st' & Hc & Hk)].
    + apply bind_thrown. now apply Hbody.
    + rewrite (bind_returned _ _ _ _ _ (Hbody _ _ _ Hc)). now apply IH.
Qed.

(** A loop that only tests has an outcome: it throws, or it returns with
    the state untouched. *)
Lemma forIn_throw_if_outcome {St} (test : string -> bool) cls kind
  (msg : string -> string) (keys : list string) (st : St) :
  (exists e, forIn keys (fun k => throw_if (test k) cls kind (msg k)) st
             = Some (Thrown e)) \/
  forIn keys (fun k => throw_if (test k) cls kind (msg k)) st
  = Some (Returned tt st).
Proof.
  induction keys as [|b keys IH]; cbn [forIn].
  - now right.
  - destruct (test b) eqn:E.
    + left. eexists. apply bind_thrown. reflexivity.
    + rewrite (bind_returned _ _ st tt st) by reflexivity. exact IH.
Qed.

(* ================================================================= *)
(** ** The visited map *)

Lemma extends_refl (map : Map) : extends map map.
Proof. intros key H. exact H. Qed.

Lemma extends_trans (m1 m2 m3 : Map) :
  extends m1 m2 -> extends m2 m3 -> extends m1 m3.
Proof. intros H12 H23 key H. apply H23, H12, H. Qed.

Lemma Map_set_extends (key v : value) (map : Map) :
  extends map (Map_set key v map).
Proof.
  intros k. induction map as [|[k0 old] rest IH]; cbn [Map_set Map_has existsb].
  - discriminate.
  - destruct (sameValueZero k0 key); cbn [Map_has existsb fst] in *.
    + auto.
    + intros H. apply orb_true_iff in H. apply orb_true_iff.
      destruct H; [now left|right; auto].
Qed.

Lemma Map_has_set (key v : value) (map : Map) :
  Map_has key (Map_set key v map) = true.
Proof.
  induction map as [|[k0 old] rest IH]; cbn [Map_set Map_has existsb fst].
  - now rewrite sameValueZero_refl.
  - destruct (sameValueZero k0 key) eqn:E; cbn [Map_has existsb fst] in *.
    + now rewrite E.
    + rewrite E. exact IH.
Qed.

Lemma filter_length_le {A} (f g : A -> bool) (l : list A) :
  (forall x, In x l -> f x = true -> g x = true) ->
  length (filter f l) <= length (filter g l).
Proof.
  induction l as [|x l IH]; intros H; cbn [filter]; [lia|].
  assert (IH' : length (filter f l) <= length (filter g l))
    by (apply IH; intros y Hy; apply H; now right).
  destruct (f x) eqn:Ef.
  - rewrite (H x (or_introl eq_refl) Ef). cbn [length]. lia.
  - destruct (g x); cbn [length]; lia.
Qed.

Lemma filter_length_lt {A} (f g : A -> bool) (l : list A) (a : A) :
  (forall x, In x l -> f x = true -> g x = true) ->
  In a l -> f a = false -> g a = true ->
  length (filter f l) < length (filter g l).
Proof.
  induction l as [|x l IH]; intros H Hin Hf Hg; [contradiction|].
  cbn [filter].
  assert (Hle : length (filter f l) <= length (filter g l))
    by (apply filter_length_le; intros y Hy; apply H; now right).
  destruct Hin as [->|Hin].
  - rewrite Hf, Hg. cbn [length]. lia.
  - assert (IH' : length (filter f l) < length (filter g l))
      by (apply IH; auto; intros y Hy; apply H; now right).
    destruct (f x) eqn:Ef.
    + rewrite (H x (or_introl eq_refl) Ef). cbn [length]. lia.
    + destruct (g x); cbn [length]; lia.
Qed.

Lemma filter_length_le_full {A} (f : A -> bool) (l : list A) :
  length (filter f l) <= length l.
Proof.
  induction l as [|x l IH]; cbn [filter]; [lia|].
  destruct (f x); cbn [length]; lia.
Qed.

Lemma unvisited_le_heap (h : heap) (map : Map) :
  length (unvisited h map) <= length h.
Proof.
  unfold unvisited.
  etransitivity; [apply filter_length_le_full|].
  now rewrite length_seq.
Qed.

Lemma unvisited_extends (h : heap) (map map' : Map) :
  extends map map' -> length (unvisited h map') <= length (unvisited h map).
Proof.
  intros Hext. unfold unvisited. apply filter_length_le.
  intros l _ Hl. apply negb_true_iff in Hl. apply negb_true_iff.
  destruct (Map_has (VRef l) map) eqn:E; [|reflexivity].
  apply Hext in E. congruence.
Qed.

(** Entering an object of the heap that was not a key uses up one of the
    unvisited objects. *)
Lemma unvisited_enter (h : heap) (map map' : Map) (l : loc) :
  extends map map' -> l < length h ->
  Map_has (VRef l) map = false -> Map_has (VRef l) map' = true ->
  length (unvisited h map') < length (unvisited h map).
Proof.
  intros Hext Hl Hno Hyes. unfold unvisited.
  apply filter_length_lt with (a := l).
  - intros x _ Hx. apply negb_true_iff in Hx. apply negb_true_iff.
    destruct (Map_has (VRef x) map) eqn:E; [|reflexivity].
    apply Hext in E. congruence.
  - apply in_seq. lia.
  - now rewrite Hyes.
  - now rewrite Hno.
Qed.

(** A reference that the heap does not define has no keys. *)
Lemma forInKeys_outside (h : heap) (l : loc) :
  length h <= l -> forInKeys h (VRef l) = [].
Proof.
  intros Hl. unfold forInKeys, deref. now rewrite nth_overflow.
Qed.

(* ================================================================= *)
(** ** The comparator: the map only grows, and more fuel changes nothing *)

Lemma bind_outcome_mono {St A B} (c : M St A) (k1 k2 : A -> M St B) st r :
  (forall a st', k1 a st' = Some r -> k2 a st' = Some r) ->
  bind c k1 st = Some r -> bind c k2 st = Some r.
Proof. unfold bind. destruct (c st) as [[a st'|e]|]; auto. Qed.

Lemma bind_outcome_mono_l {St A B} (c1 c2 : M St A) (k : A -> M St B) st r :
  (forall r', c1 st = Some r' -> c2 st = Some r') ->
  bind c1 k st = Some r -> bind c2 k st = Some r.
Proof.
  unfold bind. intros H. destruct (c1 st) as [o|] eqn:E; [|discriminate].
  now rewrite (H o eq_refl).
Qed.

Lemma assertEqualsBody_outcome_mono rec1 rec2 h msg e a kt map r :
  (forall e' a' kt' st r',
      rec1 e' a' kt' st = Some r' -> rec2 e' a' kt' st = Some r') ->
  assertEqualsBody rec1 h msg e a kt map = Some r ->
  assertEqualsBody rec2 h msg e a kt map = Some r.
Proof.
  intros Hrec. unfold assertEqualsBody.
  destruct (e === a); [auto|].
  apply bind_outcome_mono; intros seenE st1.
  apply bind_outcome_mono; intros seenA st2.
  destruct (seenE || seenA); [auto|].
  do 3 (apply bind_outcome_mono; intros ? ?).
  apply bind_outcome_mono_l. intros r'.
  destruct (negb (String.eqb (typeof a) "object")); [auto|].
  do 3 (apply bind_outcome_mono; intros ? ?).
  apply forIn_outcome_mono. intros key st r''.
  cbv zeta.
  destruct (String.eqb (typeof (getProp h e key)) "object"
            || String.eqb (typeof (getProp h a key)) "object"); [|auto].
  apply bind_outcome_mono_l. intros r3. apply Hrec.
Qed.

Lemma assertEquals_fuel_S fuel h msg e a kt map r :
  assertEquals fuel h msg e a kt map = Some r ->
  assertEquals (S fuel) h msg e a kt map = Some r.
Proof.
  revert e a kt map r. induction fuel as [|fuel IH]; intros e a kt map r H.
  - discriminate.
  - cbn [assertEquals] in *.
    apply (assertEqualsBody_outcome_mono (assertEquals fuel h msg)); [|exact H].
    intros e' a' kt' st r' H'. apply IH in H'. exact H'.
Qed.

(** An outcome reached with some fuel is the outcome with any larger
    fuel. *)
Lemma assertEquals_fuel_mono fuel fuel' h msg e a kt map r :
  fuel <= fuel' ->
  assertEquals fuel h msg e a kt map = Some r ->
  assertEquals fuel' h msg e a kt map = Some r.
Proof.
  induction 1 as [|fuel' _ IH]; intros H; [exact H|].
  apply assertEquals_fuel_S, IH, H.
Qed.

Lemma assertEqualsBody_extends recur h msg e a kt map s map' :
  (forall e' a' kt' st s' st',
      recur e' a' kt' st = Some (Returned s' st') -> extends st st') ->
  assertEqualsBody recur h msg e a kt map = Some (Returned s map') ->
  extends map map'.
Proof.
  intros Hrec. unfold assertEqualsBody.
  destruct (e === a).
  { intros H. inversion H. apply extends_refl. }
  unfold map_has at 1 2. unfold bind at 1 2.
  destruct (Map_has e map || Map_has a map).
  { intros H. inversion H. apply extends_refl. }
  unfold map_set at 1. unfold bind at 1.
  intros H. apply extends_trans with (Map_set e a map);
    [apply Map_set_extends|].
  revert H. generalize (Map_set e a map) as map1. intros map1 H.
  apply bind_inv in H. destruct H as [(? & _ & ?)|(u1 & st1 & H1 & H)];
    [discriminate|].
  apply throw_if_returned in H1. destruct H1 as [_ ->].
  apply bind_inv in H. destruct H as [(? & _ & ?)|(u2 & st2 & H2 & H)];
    [discriminate|].
  apply throw_if_returned in H2. destruct H2 as [_ ->].
  apply bind_inv in H. destruct H as [(? & _ & ?)|(u3 & st3 & H3 & H)];
    [discriminate|].
  inversion H; subst map'. clear H.
  destruct (negb (String.eqb (typeof a) "object")).
  { apply throw_if_returned in H3. destruct H3 as [_ ->]. apply extends_refl. }
  apply bind_inv in H3. destruct H3 as [(? & _ & ?)|(u4 & st4 & H4 & H)];
    [discriminate|].
  assert (st4 = map1) as ->.
  { destruct ((e === VNull) || (a === VNull)).
    - apply throw_if_returned in H4. tauto.
    - inversion H4. reflexivity. }
  apply bind_inv in H. destruct H as [(? & _ & ?)|(u5 & st5 & H5 & H)];
    [discriminate|].
  apply throw_if_returned in H5. destruct H5 as [_ ->].
  apply bind_inv in H. destruct H as [(? & _ & ?)|(u6 & st6 & H6 & H)];
    [discriminate|].
  assert (Hscan : extends map1 st6).
  { cbv zeta in H6.
    destruct (negb (Nat.eqb (length (Object_keys h e)) (length (Object_keys h a)))).
    - destruct (Nat.ltb (length (Object_keys h a)) (length (Object_keys h e)));
        (eapply forIn_invariant; [|apply extends_refl|exact H6]);
        intros key st u st' _ HP Hb;
        apply throw_if_returned in Hb; destruct Hb as [_ ->]; exact HP.
    - inversion H6. apply extends_refl. }
  apply extends_trans with st6; [exact Hscan|].
  eapply forIn_invariant; [|apply extends_refl|exact H].
  intros key st u st' _ HP Hb. cbv beta zeta in Hb.
  destruct (String.eqb (typeof (getProp h e key)) "object"
            || String.eqb (typeof (getProp h a key)) "object").
  - apply bind_inv in Hb. destruct Hb as [(? & _ & ?)|(s' & st1 & Hr & Hb)];
      [discriminate|].
    inversion Hb; subst st'. apply extends_trans with st; [exact HP|].
    eapply Hrec, Hr.
  - destruct (getProp h e key !== getProp h a key).
    + destruct (getProp h a key === VUndefined); discriminate.
    + inversion Hb; subst. exact HP.
Qed.

Lemma assertEquals_extends fuel h msg e a kt map s map' :
  assertEquals fuel h msg e a kt map = Some (Returned s map') ->
  extends map map'.
Proof.
  revert e a kt map s map'.
  induction fuel as [|fuel IH]; intros e a kt map s map' H.
  - discriminate.
  - cbn [assertEquals] in H.
    eapply assertEqualsBody_extends; [|exact H].
    intros e' a' kt' st s' st' H'. eapply IH, H'.
Qed.

(* ================================================================= *)
(** ** The comparator terminates *)

Lemma bind_has_outcome {St A B} (c : M St A) (k : A -> M St B) st :
  c st <> None ->
  (forall a st', c st = Some (Returned a st') -> k a st' <> None) ->
  bind c k st <> None.
Proof.
  unfold bind. destruct (c st) as [[a st'|e]|]; intros Hc Hk.
  - now apply Hk.
  - discriminate.
  - contradiction.
Qed.

Lemma throw_if_has_outcome {St} c cls kind msg (st : St) :
  throw_if c cls kind msg st <> None.
Proof. destruct c; discriminate. Qed.

(** One call has an outcome when the calls it makes have one from every
    map with fewer unvisited objects. *)
Lemma assertEqualsBody_has_outcome recur h msg e a kt map n :
  (forall e' a' kt' st,
      length (unvisited h st) < n -> recur e' a' kt' st <> None) ->
  (forall e' a' kt' st s' st',
      recur e' a' kt' st = Some (Returned s' st') -> extends st st') ->
  length (unvisited h map) < S n ->
  assertEqualsBody recur h msg e a kt map <> None.
Proof.
  intros Hrec Hext Hn. unfold assertEqualsBody.
  destruct (e === a) eqn:Eid; [discriminate|].
  unfold map_has at 1 2. unfold bind at 1 2.
  destruct (Map_has e map || Map_has a map) eqn:Eseen; [discriminate|].
  apply orb_false_iff in Eseen. destruct Eseen as [EseenE _].
  unfold map_set at 1. unfold bind at 1.
  pose proof (Map_set_extends e a map) as Hext1.
  pose proof (Map_has_set e a map) as Hhas1.
  revert Hext1 Hhas1. generalize (Map_set e a map) as map1.
  intros map1 Hext1 Hhas1.
  apply bind_has_outcome; [apply throw_if_has_outcome|].
  intros u1 st1 H1. apply throw_if_returned in H1. destruct H1 as [Ety ->].
  apply bind_has_outcome; [apply throw_if_has_outcome|].
  intros u2 st2 H2. apply throw_if_returned in H2. destruct H2 as [_ ->].
  apply bind_has_outcome; [|discriminate].
  destruct (negb (String.eqb (typeof a) "object")) eqn:Eobj;
    [apply throw_if_has_outcome|].
  apply negb_false_iff in Eobj. apply negb_false_iff in Ety.
  apply String.eqb_eq in Ety.
  assert (EobjE : String.eqb (typeof e) "object" = true) by now rewrite Ety.
  apply bind_has_outcome.
  { destruct ((e === VNull) || (a === VNull));
      [apply throw_if_has_outcome|discriminate]. }
  intros u3 st3 H3.
  assert (Hnull : (e === VNull) = false /\ st3 = map1).
  { destruct (e === VNull) eqn:En.
    - cbn [orb] in H3. apply throw_if_returned in H3.
      destruct H3; discriminate.
    - split; [reflexivity|].
      destruct (a === VNull); cbn [orb] in H3.
      + apply throw_if_returned in H3. tauto.
      + now inversion H3. }
  destruct Hnull as [En ->].
  assert (Href : exists le, e = VRef le).
  { destruct (typeof_object_inv e EobjE) as [->|Hr]; [discriminate|exact Hr]. }
  destruct Href as [le ->].
  apply bind_has_outcome; [apply throw_if_has_outcome|].
  intros u4 st4 H4. apply throw_if_returned in H4. destruct H4 as [_ ->].
  cbv zeta.
  apply bind_has_outcome.
  { destruct (negb (Nat.eqb (length (Object_keys h (VRef le)))
                            (length (Object_keys h a)))); [|discriminate].
    destruct (Nat.ltb (length (Object_keys h a))
                      (length (Object_keys h (VRef le))));
      match goal with
      | |- forIn ?keys (fun k => throw_if (@?t k) ?c ?kd (@?m k)) ?st <> None =>
          destruct (forIn_throw_if_outcome t c kd m keys st) as [(x & ->)| ->];
            discriminate
      end. }
  intros u5 st5 H5.
  assert (st5 = map1) as ->.
  { destruct (negb (Nat.eqb (length (Object_keys h (VRef le)))
                            (length (Object_keys h a)))); [|now inversion H5].
    destruct (Nat.ltb (length (Object_keys h a))
                      (length (Object_keys h (VRef le))));
      match type of H5 with
      | forIn ?keys (fun k => throw_if (@?t k) ?c ?kd (@?m k)) ?st = _ =>
          destruct (forIn_throw_if_outcome t c kd m keys st) as [(x & Hx)|Hx];
            rewrite Hx in H5; now inversion H5
      end. }
  destruct (Nat.lt_ge_cases le (length h)) as [Hin|Hout].
  - assert (Hlt : length (unvisited h map1) < n).
    { pose proof (unvisited_enter h map map1 le Hext1 Hin EseenE Hhas1). lia. }
    apply forIn_has_outcome with (P := extends map1); [|apply extends_refl].
    intros key st _ HP. cbv beta zeta.
    destruct (String.eqb (typeof (getProp h (VRef le) key)) "object"
              || String.eqb (typeof (getProp h a key)) "object").
    + assert (Hst : length (unvisited h st) < n).
      { pose proof (unvisited_extends h map1 st HP). lia. }
      specialize (Hrec (getProp h (VRef le) key) (getProp h a key)
                       (kt ++ [key])%list st Hst).
      destruct (recur (getProp h (VRef le) key) (getProp h a key)
                      (kt ++ [key])%list st) as [[s' st'|x]|] eqn:Er.
      * right. exists tt, st'. split.
        -- rewrite (bind_returned _ _ _ _ _ Er). reflexivity.
        -- apply extends_trans with st; [exact HP|]. eapply Hext, Er.
      * left. exists x. now apply bind_thrown.
      * contradiction.
    + destruct (getProp h (VRef le) key !== getProp h a key).
      * left. destruct (getProp h a key === VUndefined); eexists; reflexivity.
      * right. exists tt, st. split; [reflexivity|exact HP].
  - rewrite (forInKeys_outside h le Hout). discriminate.
Qed.

Lemma assertEquals_has_outcome fuel h msg e a kt map :
  length (unvisited h map) < fuel ->
  assertEquals fuel h msg e a kt map <> None.
Proof.
  revert e a kt map. induction fuel as [|fuel IH]; intros e a kt map Hn.
  - lia.
  - cbn [assertEquals]. apply assertEqualsBody_has_outcome with (n := fuel).
    + intros e' a' kt' st Hst. now apply IH.
    + intros e' a' kt' st s' st' H. eapply assertEquals_extends, H.
    + exact Hn.
Qed.

(** From the empty map, a fuel above the number of objects of the heap
    gives the outcome of the comparison, one and the same for every such
    fuel. *)
Lemma assertEquals_total h msg e a kt :
  exists r, forall fuel, length h < fuel ->
    assertEquals fuel h msg e a kt new_Map = Some r.
Proof.
  destruct (assertEquals (S (length h)) h msg e a kt new_Map) as [r|] eqn:E.
  - exists r. intros fuel Hf.
    apply (assertEquals_fuel_mono (S (length h))); [lia|exact E].
  - exfalso. revert E. apply assertEquals_has_outcome.
    pose proof (unvisited_le_heap h new_Map). lia.
Qed.

(* ================================================================= *)
(** ** Substrings *)

Lemma prefix_app (a post : string) : String.prefix a (a ++ post) = true.
Proof.
  induction a as [|c a IH]; cbn.
  - now destruct post.
  - destruct (ascii_dec c c); [exact IH|contradiction].
Qed.

Lemma prefix_inv (a b : string) :
  String.prefix a b = true -> exists post, b = a ++ post.
Proof.
  revert b. induction a as [|c a IH]; intros b H.
  - exists b. reflexivity.
  - destruct b as [|d b]; cbn in H; [discriminate|].
    destruct (ascii_dec c d) as [->|]; [|discriminate].
    destruct (IH b H) as [post ->]. exists post. reflexivity.
Qed.

Lemma containsb_Contains (needle hay : string) :
  containsb needle hay = true <-> Contains needle hay.
Proof.
  split.
  - induction hay as [|c hay IH]; cbn [containsb].
    + destruct (String.prefix needle "") eqn:E; [|discriminate].
      intros _. destruct (prefix_inv _ _ E) as [post Hp].
      exists "", post. exact Hp.
    + destruct (String.prefix needle (String c hay)) eqn:E.
      * intros _. destruct (prefix_inv _ _ E) as [post Hp].
        exists "", post. exact Hp.
      * intros H. destruct (IH H) as (pre & post & ->).
        exists (String c pre), post. reflexivity.
  - intros (pre & post & ->). induction pre as [|c pre IH].
    + cbn [append]. destruct (needle ++ post) eqn:E; cbn [containsb];
        rewrite <- E, prefix_app; reflexivity.
    + cbn [append containsb]. rewrite IH.
      now destruct (String.prefix needle _).
Qed.

Lemma Contains_app_r (needle pre s : string) :
  Contains needle s -> Contains needle (pre ++ s).
Proof.
  intros (a & b & ->). exists (pre ++ a), b.
  induction pre as [|c pre IH]; cbn [append]; [reflexivity|now rewrite IH].
Qed.

Lemma append_nil_r (s : string) : s ++ "" = s.
Proof. induction s as [|c s IH]; cbn; [reflexivity|now rewrite IH]. Qed.

Lemma Contains_refl (s : string) : Contains s s.
Proof. exists "", "". cbn. now rewrite append_nil_r. Qed.

Lemma append_assoc_string (a b c : string) : (a ++ b) ++ c = a ++ b ++ c.
Proof. induction a as [|x a IH]; cbn; [reflexivity|now rewrite IH]. Qed.

Lemma Contains_app_l (needle s post : string) :
  Contains needle s -> Contains needle (s ++ post).
Proof.
  intros (a & b & ->). exists a, (b ++ post).
  now rewrite !append_assoc_string.
Qed.

Lemma Contains_quoted (s : string) : Contains s (quoted s).
Proof. exists dquote, dquote. reflexivity. Qed.

Lemma Contains_here (needle post : string) : Contains needle (needle ++ post).
Proof. exists "", post. reflexivity. Qed.

(* ================================================================= *)
(** ** Entering a call

    The first steps of a call on a pair that is neither identical nor
    short-circuited by the visited map: the pair is recorded and the
    checks start from the extended map. *)

Ltac enter_call Hid HseenE HseenA :=
  cbn [assertEquals]; unfold assertEqualsBody;
  rewrite Hid;
  unfold map_has at 1 2; unfold bind at 1 2;
  rewrite HseenE, HseenA; cbn [orb];
  unfold map_set at 1; unfold bind at 1.

Ltac step_returned :=
  match goal with
  | |- context [bind ?c ?k ?st] =>
      rewrite (bind_returned c k st tt st) by reflexivity
  end.

Lemma Map_has_new (key : value) : Map_has key new_Map = false.
Proof. reflexivity. Qed.

(** The string a successful call returns. *)
Lemma assertEquals_returns_pass fuel h msg e a kt map s map' :
  assertEquals fuel h msg e a kt map = Some (Returned s map') ->
  s = msg ++ ": Pass!".
Proof.
  destruct fuel as [|fuel]; [discriminate|].
  cbn [assertEquals]. unfold assertEqualsBody.
  destruct (e === a); [intros H; now inversion H|].
  unfold map_has at 1 2. unfold bind at 1 2.
  destruct (Map_has e map || Map_has a map); [intros H; now inversion H|].
  intros H.
  repeat (apply bind_inv in H;
          destruct H as [(? & _ & ?)|(? & ? & _ & H)]; [discriminate|]).
  now inversion H.
Qed.

(* ================================================================= *)
(** * The claims *)

(** ** C1: reflexivity *)

(** C1, as amended: for every value [x] other than the number NaN
    (primitive or composite, self-referential composites included), every
    heap and every message, the comparison of [x] with itself succeeds:
    it returns the pass string and leaves the visited map empty. *)
Theorem C1_reflexive_unless_NaN (fuel : nat) (h : heap) (msg : string)
  (x : value) :
  x <> VNumber Number.NaN ->
  assertEquals (S fuel) h msg x x [] new_Map
  = Some (Returned (msg ++ ": Pass!") new_Map).
Proof.
  intros Hx. cbn [assertEquals]. unfold assertEqualsBody.
  now rewrite (strict_eq_refl x Hx).
Qed.

(** The self-referential object [a = {self: a}] is equal to itself. *)
Lemma C1_witness_self_reference :
  VRef 0 <> VNumber Number.NaN /\
  assertEquals 1 heap_self "t" (VRef 0) (VRef 0) [] new_Map
  = Some (Returned "t: Pass!" new_Map).
Proof.
  split; [discriminate|].
  apply (C1_reflexive_unless_NaN 0 heap_self "t" (VRef 0)). discriminate.
Defined.

(** C1 as stated fails at NaN: [NaN === NaN] is false, the map is empty,
    the types agree, and the comparison of primitives throws.  No fuel
    makes the comparison succeed. *)
Lemma C1_counterexample_NaN :
  assertEquals 1 [] "t" (VNumber Number.NaN) (VNumber Number.NaN) [] new_Map
  = Some (Thrown (mkExn Error ValueMismatch
                        ("t: Expected " ++ quoted "NaN"
                                        ++ " but found " ++ quoted "NaN")))
  /\ (forall fuel s map,
         assertEquals fuel [] "t" (VNumber Number.NaN) (VNumber Number.NaN)
                      [] new_Map
         <> Some (Returned s map)).
Proof.
  split; [reflexivity|].
  intros [|fuel] s map; discriminate.
Qed.

(** ** C2: cycles *)

(** C2: from the empty map every comparison terminates, whatever cycles
    the heap holds: some outcome is the outcome for every fuel above the
    number of objects of the heap.  For [a = {self: a}] and
    [c = {self: c}] the comparison of [a] with [c] succeeds. *)
Theorem C2_cycles_terminate :
  (forall (h : heap) (msg : string) (e a : value),
      exists r, forall fuel, length h < fuel ->
        assertEquals fuel h msg e a [] new_Map = Some r)
  /\ (forall (msg : string) (fuel : nat),
         assertEquals (S (S fuel)) heap_self msg (VRef 0) (VRef 1) [] new_Map
         = Some (Returned (msg ++ ": Pass!") [(VRef 0, VRef 1)])).
Proof.
  split.
  - intros h msg e a. apply assertEquals_total.
  - intros msg fuel. reflexivity.
Qed.

(** With fuel 3 on the two-object heap of the scenario. *)
Lemma C2_witness_two_cycles :
  length heap_self < 3 /\
  exists r, assertEquals 3 heap_self "t" (VRef 0) (VRef 1) [] new_Map = Some r.
Proof.
  split; [cbn; lia|].
  destruct (proj1 C2_cycles_terminate heap_self "t" (VRef 0) (VRef 1))
    as [r Hr].
  exists r. apply Hr. cbn. lia.
Defined.

(** The test cases 12 to 21 of [runAll], on self-referential objects of
    various depth, all pass. *)
Example runAll_self_referential :
  map (fun tc => runTest 8 heap_runAll tc new_Map)
      [ mkTestCase "Test 12" (VRef 0) (VRef 1);
        mkTestCase "Test 13" (VRef 0) (VRef 2);
        mkTestCase "Test 14" (VRef 0) (VRef 3);
        mkTestCase "Test 15" (VRef 0) (VRef 5);
        mkTestCase "Test 16" (VRef 1) (VRef 0);
        mkTestCase "Test 16" (VRef 1) (VRef 2);
        mkTestCase "Test 17" (VRef 1) (VRef 3);
        mkTestCase "Test 18" (VRef 1) (VRef 5);
        mkTestCase "Test 19" (VRef 2) (VRef 3);
        mkTestCase "Test 20" (VRef 2) (VRef 5);
        mkTestCase "Test 21" (VRef 3) (VRef 5) ]
  = map (fun out => Some (Returned (fst out) (snd out)))
      [ ("Test 12: Pass!", [(VRef 0, VRef 1)]);
        ("Test 13: Pass!", [(VRef 0, VRef 2)]);
        ("Test 14: Pass!", [(VRef 0, VRef 3)]);
        ("Test 15: Pass!", [(VRef 0, VRef 5)]);
        ("Test 16: Pass!", [(VRef 1, VRef 0)]);
        ("Test 16: Pass!", [(VRef 1, VRef 2); (VRef 0, VRef 2)]);
        ("Test 17: Pass!", [(VRef 1, VRef 3); (VRef 0, VRef 4)]);
        ("Test 18: Pass!", [(VRef 1, VRef 5); (VRef 0, VRef 6)]);
        ("Test 19: Pass!", [(VRef 2, VRef 3)]);
        ("Test 20: Pass!", [(VRef 2, VRef 5)]);
        ("Test 21: Pass!", [(VRef 3, VRef 5); (VRef 4, VRef 6); (VRef 0, VRef 1)]) ].
Proof. reflexivity. Qed.

(** ** C3: a nested leaf *)

(** C3: [{a:1, b:{c:2}}] against [{a:1, b:{c:3}}] fails as a
    ValueMismatch whose message holds the path [b.c] and the two values
    2 and 3. *)
Theorem C3_nested_value_mismatch (fuel : nat) :
  let msg := "t: Expected b.c " ++ quoted "2" ++ " but found " ++ quoted "3" in
  assertEquals (S (S fuel)) heap_nested "t" (VRef 0) (VRef 2) [] new_Map
  = Some (Thrown (mkExn Error ValueMismatch msg))
  /\ Contains "b.c" msg /\ Contains (quoted "2") msg
  /\ Contains (quoted "3") msg.
Proof.
  cbv zeta. split; [reflexivity|].
  repeat split; apply containsb_Contains; reflexivity.
Qed.

(** ** C4: array, object and null *)

Lemma has_shape_objType h v name : has_shape h v name -> objType h v = name.
Proof.
  intros H. destruct H as [|l elems Hd|l props Hd]; unfold objType, Array_isArray.
  - reflexivity.
  - now rewrite Hd.
  - now rewrite Hd.
Qed.

Lemma has_shape_isArray h v name :
  has_shape h v name -> Array_isArray h v = String.eqb name "Array".
Proof.
  intros H. destruct H as [|l elems Hd|l props Hd]; unfold Array_isArray.
  - reflexivity.
  - now rewrite Hd.
  - now rewrite Hd.
Qed.

Lemma has_shape_typeof h v name : has_shape h v name -> typeof v = "object".
Proof. intros H. now destruct H. Qed.

Lemma has_shape_null h v name :
  has_shape h v name -> v === VNull = String.eqb name "Null".
Proof. intros H. now destruct H. Qed.

Lemma has_shape_differ h e a ne na :
  has_shape h e ne -> has_shape h a na -> ne <> na -> e === a = false.
Proof.
  intros He Ha Hne.
  destruct He as [|l elems Hd|l props Hd], Ha as [|l' elems' Hd'|l' props' Hd'];
    try reflexivity; try contradiction;
    cbn [strict_eq]; apply Nat.eqb_neq; intros ->; congruence.
Qed.

(** C4: when each operand is null, an array or an object of the heap
    and the two are of different shapes (an array against an object, or
    null against an array or an object), the comparison fails as a
    ShapeMismatch, a [TypeError] whose message names the shape of
    expected and then the shape of actual, each as Array, Object or
    Null: between double quotes when one of the two is an array, and
    bare when one is null and the other an object. *)
Theorem C4_shape_mismatch (fuel : nat) (h : heap) (msg : string)
  (e a : value) (kt : list string) (ne na : string) :
  has_shape h e ne -> has_shape h a na -> ne <> na ->
  assertEquals (S fuel) h msg e a kt new_Map
  = Some (Thrown (mkExn TypeError ShapeMismatch
       (if String.eqb ne "Array" || String.eqb na "Array"
        then msg ++ ": Expected type " ++ quoted ne
                 ++ " but found type " ++ quoted na
        else msg ++ ": Expected type " ++ ne ++ " but found " ++ na))).
Proof.
  intros He Ha Hne.
  pose proof (has_shape_differ h e a ne na He Ha Hne) as Hid.
  enter_call Hid (Map_has_new e) (Map_has_new a).
  rewrite (has_shape_typeof h e ne He), (has_shape_typeof h a na Ha).
  rewrite String.eqb_refl. cbn [negb]. step_returned.
  rewrite (has_shape_objType h e ne He), (has_shape_objType h a na Ha).
  rewrite (has_shape_isArray h e ne He), (has_shape_isArray h a na Ha).
  rewrite (has_shape_null h e ne He), (has_shape_null h a na Ha).
  destruct He as [|l elems Hd|l props Hd], Ha as [|l' elems' Hd'|l' props' Hd'];
    try contradiction; reflexivity.
Qed.

(** [null] against [{}], and Test 03 of [runAll], [['a']] against
    [{0: 'a'}]. *)
Lemma C4_witness_shapes :
  assertEquals 1 heap_empty_object "t" VNull (VRef 0) [] new_Map
  = Some (Thrown (mkExn TypeError ShapeMismatch
       "t: Expected type Null but found Object"))
  /\ assertEquals 1 heap_array_object "Test 03" (VRef 0) (VRef 1) [] new_Map
     = Some (Thrown (mkExn TypeError ShapeMismatch
          ("Test 03: Expected type " ++ quoted "Array"
               ++ " but found type " ++ quoted "Object"))).
Proof.
  split.
  - apply (C4_shape_mismatch 0 heap_empty_object "t" VNull (VRef 0) []
             "Null" "Object").
    + constructor.
    + apply (shape_object heap_empty_object 0 []). reflexivity.
    + discriminate.
  - apply (C4_shape_mismatch 0 heap_array_object "Test 03" (VRef 0) (VRef 1) []
             "Array" "Object").
    + apply (shape_array heap_array_object 0 [VString "a"]). reflexivity.
    + apply (shape_object heap_array_object 1 [("0", VString "a")]).
      reflexivity.
    + discriminate.
Defined.

(** ** C5: arrays of different lengths *)

(** C5: two arrays of different lengths (lengths that an array can
    have, below [2^32]) fail as a LengthMismatch, and the message gives
    the two lengths in decimal. *)
Theorem C5_length_mismatch (fuel : nat) (h : heap) (msg : string)
  (le la : loc) (xs ys : list value) (kt : list string) :
  deref h le = OArray xs -> deref h la = OArray ys ->
  (N.of_nat (length xs) < 2 ^ 32)%N -> (N.of_nat (length ys) < 2 ^ 32)%N ->
  length xs <> length ys ->
  assertEquals (S fuel) h msg (VRef le) (VRef la) kt new_Map
  = Some (Thrown (mkExn Error LengthMismatch
       (msg ++ ": Expected array length "
            ++ quoted (decimal (N.of_nat (length xs)))
            ++ " but found length "
            ++ quoted (decimal (N.of_nat (length ys)))))).
Proof.
  intros Hxs Hys Bx By Hlen.
  assert (Hid : VRef le === VRef la = false).
  { cbn. apply Nat.eqb_neq. intros ->. rewrite Hxs in Hys.
    inversion Hys. subst. contradiction. }
  assert (Bx' : (N.of_nat (length xs) < 2 ^ 53)%N)
    by (eapply N.lt_trans; [exact Bx|reflexivity]).
  assert (By' : (N.of_nat (length ys) < 2 ^ 53)%N)
    by (eapply N.lt_trans; [exact By|reflexivity]).
  enter_call Hid (Map_has_new (VRef le)) (Map_has_new (VRef la)).
  cbn [typeof]. rewrite String.eqb_refl. cbn [negb].
  step_returned.
  unfold Array_isArray at 1 2. rewrite Hxs, Hys. cbn [Bool.eqb negb].
  step_returned.
  cbn [strict_eq orb].
  apply bind_thrown. step_returned. apply bind_thrown.
  assert (HLx : getProp h (VRef le) "length"
                = VNumber (Number.of_nat (length xs)))
    by (unfold getProp; rewrite Hxs; reflexivity).
  assert (HLy : getProp h (VRef la) "length"
                = VNumber (Number.of_nat (length ys)))
    by (unfold getProp; rewrite Hys; reflexivity).
  rewrite HLx, HLy. cbn [strict_eq]. unfold Number.of_nat.
  rewrite (of_N_eqb _ _ Bx' By').
  assert (Hne : N.eqb (N.of_nat (length xs)) (N.of_nat (length ys)) = false)
    by (apply N.eqb_neq; lia).
  rewrite Hne. cbn [negb].
  unfold ToString. cbn [toStringFuel].
  rewrite (toString_of_N _ Bx'), (toString_of_N _ By'). reflexivity.
Qed.

(** [["a","b"]] against [["a","b","c"]]: the lengths 2 and 3. *)
Lemma C5_witness_two_three :
  assertEquals 1 heap_arrays "t" (VRef 0) (VRef 1) [] new_Map
  = Some (Thrown (mkExn Error LengthMismatch
       ("t: Expected array length " ++ quoted "2"
            ++ " but found length " ++ quoted "3"))).
Proof.
  apply (C5_length_mismatch 0 heap_arrays "t" 0 1
           [VString "a"; VString "b"]
           [VString "a"; VString "b"; VString "c"] []);
    [reflexivity|reflexivity|reflexivity|reflexivity|discriminate].
Defined.

(** ** C6: objects with different numbers of keys *)

(** A key scan is a loop that throws at [firstUndefined]. *)
Lemma forIn_firstUndefined {St} (h : heap) (o : value) cls kind
  (msg : string -> string) (keys : list string) (st : St) :
  forIn keys (fun key => throw_if (getProp h o key === VUndefined)
                                  cls kind (msg key)) st
  = match firstUndefined h o keys with
    | Some key => Some (Thrown (mkExn cls kind (msg key)))
    | None => Some (Returned tt st)
    end.
Proof.
  induction keys as [|key rest IH]; cbn [forIn firstUndefined]; [reflexivity|].
  destruct (getProp h o key === VUndefined).
  - reflexivity.
  - rewrite (bind_returned _ _ st tt st) by reflexivity. exact IH.
Qed.

(** What [firstUndefined] finds is the first key that reads undefined. *)
Lemma firstUndefined_first (h : heap) (o : value) (keys : list string)
  (key : string) :
  firstUndefined h o keys = Some key ->
  exists before after,
    keys = (before ++ key :: after)%list
    /\ (forall k, In k before -> getProp h o k === VUndefined = false)
    /\ getProp h o key === VUndefined = true.
Proof.
  induction keys as [|k0 rest IH]; cbn [firstUndefined]; [discriminate|].
  destruct (getProp h o k0 === VUndefined) eqn:E.
  - intros H. inversion H; subst. exists [], rest.
    split; [reflexivity|]. split; [contradiction|exact E].
  - intros H. destruct (IH H) as (before & after & -> & Hb & Hk).
    exists (k0 :: before), after. split; [reflexivity|]. split; [|exact Hk].
    intros k [<-|Hin]; [exact E|now apply Hb].
Qed.

Lemma firstUndefined_none (h : heap) (o : value) (keys : list string) :
  firstUndefined h o keys = None ->
  forall k, In k keys -> getProp h o k === VUndefined = false.
Proof.
  induction keys as [|k0 rest IH]; cbn [firstUndefined]; [contradiction|].
  destruct (getProp h o k0 === VUndefined) eqn:E; [discriminate|].
  intros H k [<-|Hin]; [exact E|now apply IH].
Qed.

(** A property that does not read undefined is an own property. *)
Lemma lookupProp_defined (key : string) (props : list (string * value)) :
  lookupProp key props === VUndefined = false -> In key (map fst props).
Proof.
  induction props as [|[k v] rest IH]; cbn [lookupProp map fst In].
  - discriminate.
  - destruct (String.eqb_spec k key) as [->|]; [now left|].
    intros H. right. now apply IH.
Qed.

(** Pigeonhole: more distinct keys than the object has properties, and
    one of them reads undefined in the object. *)
Lemma firstUndefined_exists (h : heap) (lo : loc)
  (props : list (string * value)) (keys : list string) :
  deref h lo = OObject props -> NoDup keys -> length props < length keys ->
  exists key, firstUndefined h (VRef lo) keys = Some key.
Proof.
  intros Hlo Hnd Hlen.
  destruct (firstUndefined h (VRef lo) keys) as [key|] eqn:E; [eauto|].
  exfalso.
  assert (Hincl : incl keys (map fst props)).
  { intros k Hk. apply lookupProp_defined.
    pose proof (firstUndefined_none _ _ _ E k Hk) as Hd.
    unfold getProp in Hd. now rewrite Hlo in Hd. }
  pose proof (NoDup_incl_length Hnd Hincl) as Hle.
  rewrite length_map in Hle. lia.
Qed.

(** What entering the scan amounts to: when both operands are objects
    whose [length] properties are strictly equal and whose numbers of own
    keys differ, the comparison fails where the scan of the larger side
    against the smaller side fails. *)
Lemma key_scan_entered (fuel : nat) (h : heap) (msg : string) (le la : loc)
  (pe pa : list (string * value)) (kt : list string) (visited : Map)
  (r : Exn) :
  deref h le = OObject pe -> deref h la = OObject pa ->
  le <> la ->
  Map_has (VRef le) visited = false -> Map_has (VRef la) visited = false ->
  lookupProp "length" pe === lookupProp "length" pa = true ->
  length pe <> length pa ->
  (if Nat.ltb (length pa) (length pe) then
     forIn (map fst pe) (fun key =>
       throw_if (getProp h (VRef la) key === VUndefined) Error MissingKey
         (msg ++ ": Expected " ++ join_dot (kt ++ [key])%list
              ++ " but was not found"))
   else
     forIn (map fst pa) (fun key =>
       throw_if (getProp h (VRef le) key === VUndefined) Error UnexpectedKey
         (msg ++ ": Found unexpected " ++ join_dot (kt ++ [key])%list)))
    (Map_set (VRef le) (VRef la) visited) = Some (Thrown r) ->
  assertEquals (S fuel) h msg (VRef le) (VRef la) kt visited
  = Some (Thrown r).
Proof.
  intros Hpe Hpa Hne HseenE HseenA Hlength Hlen Hr.
  assert (Hid : VRef le === VRef la = false)
    by (cbn; now apply Nat.eqb_neq).
  enter_call Hid HseenE HseenA.
  cbn [typeof]. rewrite String.eqb_refl. cbn [negb]. step_returned.
  unfold Array_isArray at 1 2. rewrite Hpe, Hpa. cbn [Bool.eqb negb].
  step_returned. cbn [strict_eq orb].
  apply bind_thrown. step_returned.
  assert (HL : getProp h (VRef le) "length" !== getProp h (VRef la) "length"
               = false).
  { unfold getProp. rewrite Hpe, Hpa, Hlength. reflexivity. }
  rewrite HL. step_returned.
  cbv zeta. unfold Object_keys, forInKeys. rewrite Hpe, Hpa.
  rewrite !length_map.
  assert (Hneq : Nat.eqb (length pe) (length pa) = false)
    by now apply Nat.eqb_neq.
  rewrite Hneq. cbn [negb].
  apply bind_thrown. exact Hr.
Qed.

(** Expected has more keys: the scan of its keys against actual. *)
Lemma key_scan_expected_larger (fuel : nat) (h : heap) (msg : string)
  (le la : loc) (pe pa : list (string * value)) (kt : list string)
  (visited : Map) :
  deref h le = OObject pe -> deref h la = OObject pa ->
  le <> la ->
  Map_has (VRef le) visited = false -> Map_has (VRef la) visited = false ->
  lookupProp "length" pe === lookupProp "length" pa = true ->
  NoDup (map fst pe) ->
  length pa < length pe ->
  exists key,
    firstUndefined h (VRef la) (map fst pe) = Some key /\
    assertEquals (S fuel) h msg (VRef le) (VRef la) kt visited
    = Some (Thrown (mkExn Error MissingKey
         (msg ++ ": Expected " ++ join_dot (kt ++ [key])%list
              ++ " but was not found"))).
Proof.
  intros Hpe Hpa Hne HseenE HseenA Hlength Hnd Hlt.
  destruct (firstUndefined_exists h la pa (map fst pe) Hpa Hnd)
    as [key Hkey]; [now rewrite length_map|].
  exists key. split; [exact Hkey|].
  apply (key_scan_entered fuel h msg le la pe pa kt visited _
           Hpe Hpa Hne HseenE HseenA Hlength); [lia|].
  apply Nat.ltb_lt in Hlt. rewrite Hlt.
  rewrite forIn_firstUndefined, Hkey. reflexivity.
Qed.

(** Actual has more keys: the scan of its keys against expected. *)
Lemma key_scan_actual_larger (fuel : nat) (h : heap) (msg : string)
  (le la : loc) (pe pa : list (string * value)) (kt : list string)
  (visited : Map) :
  deref h le = OObject pe -> deref h la = OObject pa ->
  le <> la ->
  Map_has (VRef le) visited = false -> Map_has (VRef la) visited = false ->
  lookupProp "length" pe === lookupProp "length" pa = true ->
  NoDup (map fst pa) ->
  length pe < length pa ->
  exists key,
    firstUndefined h (VRef le) (map fst pa) = Some key /\
    assertEquals (S fuel) h msg (VRef le) (VRef la) kt visited
    = Some (Thrown (mkExn Error UnexpectedKey
         (msg ++ ": Found unexpected " ++ join_dot (kt ++ [key])%list))).
Proof.
  intros Hpe Hpa Hne HseenE HseenA Hlength Hnd Hlt.
  destruct (firstUndefined_exists h le pe (map fst pa) Hpe Hnd)
    as [key Hkey]; [now rewrite length_map|].
  exists key. split; [exact Hkey|].
  apply (key_scan_entered fuel h msg le la pe pa kt visited _
           Hpe Hpa Hne HseenE HseenA Hlength); [lia|].
  assert (Hge : Nat.ltb (length pa) (length pe) = false)
    by (apply Nat.ltb_ge; lia).
  rewrite Hge.
  rewrite forIn_firstUndefined, Hkey. reflexivity.
Qed.

(** Where no property has the value undefined, reading undefined is
    being absent. *)
Lemma lookupProp_undefined_absent (key : string)
  (props : list (string * value)) :
  all_defined props = true ->
  lookupProp key props === VUndefined
  = negb (existsb (String.eqb key) (map fst props)).
Proof.
  induction props as [|[k v] rest IH]; cbn [all_defined forallb]; intros Hd.
  - reflexivity.
  - apply andb_true_iff in Hd. destruct Hd as [Hv Hrest]. cbn [snd] in Hv.
    cbn [lookupProp map fst existsb]. rewrite (String.eqb_sym key k).
    destruct (String.eqb k key).
    + apply negb_true_iff in Hv. rewrite Hv. reflexivity.
    + cbn [orb]. now apply IH.
Qed.

Lemma firstUndefined_firstAbsent (h : heap) (lo : loc)
  (props : list (string * value)) (keys : list string) :
  deref h lo = OObject props -> all_defined props = true ->
  firstUndefined h (VRef lo) keys = firstAbsent (map fst props) keys.
Proof.
  intros Hlo Hd. unfold firstAbsent.
  induction keys as [|key rest IH]; cbn [firstUndefined find]; [reflexivity|].
  unfold getProp at 1. rewrite Hlo.
  rewrite (lookupProp_undefined_absent key props Hd).
  destruct (negb (existsb (String.eqb key) (map fst props)));
    [reflexivity|exact IH].
Qed.

(** C6: the scan does not look for a key that one side has and the
    other has not, as the claim and the comments of the scan have it; it
    tests [=== undefined].  For [{a: undefined}] against [{a:1, b:2}],
    where the key that actual has and expected has not is [b], the
    comparison fails as an UnexpectedKey at [a], a key of both objects.
    On the claim's own scenario, [{a:'a'}] against [{a:'a', c:'c'}],
    where no value is undefined, it fails as an UnexpectedKey at [c]. *)
Theorem C6_scan_reports_key_of_both :
  assertEquals 1 heap_undefined_key "t" (VRef 0) (VRef 1) [] new_Map
  = Some (Thrown (mkExn Error UnexpectedKey "t: Found unexpected a"))
  /\ Object_keys heap_undefined_key (VRef 0) = ["a"]
  /\ Object_keys heap_undefined_key (VRef 1) = ["a"; "b"]
  /\ firstAbsent (Object_keys heap_undefined_key (VRef 0))
                 (Object_keys heap_undefined_key (VRef 1)) = Some "b"
  /\ assertEquals 1 heap_keys "t" (VRef 0) (VRef 1) [] new_Map
     = Some (Thrown (mkExn Error UnexpectedKey "t: Found unexpected c")).
Proof. repeat split. Qed.

(** ** C7: values of different types *)

(** C7, as amended: on every pair the comparator is called on (the
    top-level pair, and a nested pair of which at least one value has
    [typeof] "object"), with any key path, if the pair is not
    short-circuited by the visited map and the [typeof] of the two values
    differ, the call fails as a TypeMismatch, a [TypeError] whose message
    holds the two [typeof] names. *)
Theorem C7_type_mismatch (fuel : nat) (h : heap) (msg : string)
  (e a : value) (kt : list string) (visited : Map) :
  Map_has e visited = false -> Map_has a visited = false ->
  typeof e <> typeof a ->
  let m := msg ++ ": Expected type " ++ quoted (typeof e)
               ++ " but found type " ++ quoted (typeof a) in
  assertEquals (S fuel) h msg e a kt visited
  = Some (Thrown (mkExn TypeError TypeMismatch m))
  /\ Contains (typeof e) m /\ Contains (typeof a) m.
Proof.
  intros HseenE HseenA Hty. cbv zeta. split.
  - enter_call (typeof_differs_strict_eq e a Hty) HseenE HseenA.
    apply bind_thrown.
    assert (E : String.eqb (typeof e) (typeof a) = false)
      by now apply String.eqb_neq.
    rewrite E. reflexivity.
  - split.
    + apply Contains_app_r, Contains_app_r, Contains_app_l, Contains_quoted.
    + do 4 apply Contains_app_r. apply Contains_quoted.
Qed.

(** A string against a number at the top level. *)
Lemma C7_witness_string_number :
  assertEquals 1 [] "t" (VString "1") (num 1) [] new_Map
  = Some (Thrown (mkExn TypeError TypeMismatch
       ("t: Expected type " ++ quoted "string"
            ++ " but found type " ++ quoted "number"))).
Proof.
  apply (C7_type_mismatch 0 [] "t" (VString "1") (num 1) [] new_Map);
    [reflexivity|reflexivity|discriminate].
Defined.

(** C7 as stated fails at nested positions.  In [{a:"x"}] against
    [{a:1}] the values at [a] are a string and a number, neither of them
    of [typeof] "object": the comparator does not call itself on them and
    fails as a ValueMismatch.  In [{b:{c:1}}] against [{b:{c:{}}}] the
    call at [b.c] fails as a TypeMismatch whose message does not hold the
    path [b.c]. *)
Lemma C7_counterexample_nested :
  (typeof (getProp heap_leaf_types (VRef 0) "a") = "string"
   /\ typeof (getProp heap_leaf_types (VRef 1) "a") = "number"
   /\ assertEquals 1 heap_leaf_types "t" (VRef 0) (VRef 1) [] new_Map
      = Some (Thrown (mkExn Error ValueMismatch
           ("t: Expected a " ++ quoted "x" ++ " but found " ++ quoted "1"))))
  /\
  (assertEquals 3 heap_deep_types "t" (VRef 0) (VRef 2) [] new_Map
   = Some (Thrown (mkExn TypeError TypeMismatch
        ("t: Expected type " ++ quoted "number"
             ++ " but found type " ++ quoted "object")))
   /\ containsb "b.c" ("t: Expected type " ++ quoted "number"
                          ++ " but found type " ++ quoted "object") = false).
Proof. repeat split. Qed.

(** ** C8: the pass message *)

(** C8, as amended: the comparison of "abc" with "abc" under the label
    "t" succeeds with a string that starts with the label.  The
    cycle-guarded comparator returns exactly [t: Pass!]; the earlier
    comparator of [index.js] returns a string that holds the compared
    value "abc". *)
Theorem C8_pass_message (fuel : nat) :
  assertEquals (S fuel) [] "t" (VString "abc") (VString "abc") [] new_Map
  = Some (Returned ("t" ++ ": Pass!") new_Map)
  /\ Legacy.assertEquals (S fuel) [] "t" (VString "abc") (VString "abc") None tt
     = Some (Returned ("t" ++ ": Pass! " ++ quoted "abc"
                           ++ " equals " ++ quoted "abc") tt)
  /\ Contains (quoted "abc")
              ("t" ++ ": Pass! " ++ quoted "abc" ++ " equals " ++ quoted "abc").
Proof.
  split; [reflexivity|]. split; [reflexivity|].
  apply containsb_Contains. reflexivity.
Qed.

(** C8 as stated fails for the cycle-guarded comparator: its pass
    message does not hold the compared value. *)
Lemma C8_counterexample_no_value :
  assertEquals 1 [] "t" (VString "abc") (VString "abc") [] new_Map
  = Some (Returned "t: Pass!" new_Map)
  /\ ~ Contains "abc" "t: Pass!".
Proof.
  split; [reflexivity|].
  intros H. apply containsb_Contains in H. discriminate.
Qed.

(** ** C9: the runner *)

(** Whatever the comparator does, the runner does not throw. *)
Lemma runTest_never_throws fuel h tc st e :
  runTest fuel h tc st <> Some (Thrown e).
Proof.
  unfold runTest, tryCatch.
  destruct (assertEquals _ _ _ _ _ _ _) as [[s st'|x]|]; discriminate.
Qed.

Lemma Legacy_runTest_never_throws fuel h tc st e :
  Legacy.runTest fuel h tc st <> Some (Thrown e).
Proof.
  unfold Legacy.runTest, tryCatch.
  destruct (Legacy.assertEquals _ _ _ _ _ _ _) as [[s st'|x]|]; discriminate.
Qed.

(** C9: for every test case the runner returns a string and does not
    throw, with every fuel above the number of objects of the heap: the
    pass string when the comparison succeeds, the message of the
    exception when it fails. *)
Theorem C9_runTest_returns_string (h : heap) (tc : TestCase) :
  exists s : string,
    (forall fuel, length h < fuel ->
       exists st, runTest fuel h tc new_Map = Some (Returned s st))
    /\ ((s = message tc ++ ": Pass!" /\
         exists st, forall fuel, length h < fuel ->
           assertEquals fuel h (message tc) (expected tc) (actual tc) []
                        new_Map = Some (Returned s st))
        \/
        (exists e, s = exn_message e /\
           forall fuel, length h < fuel ->
             assertEquals fuel h (message tc) (expected tc) (actual tc) []
                          new_Map = Some (Thrown e))).
Proof.
  destruct (assertEquals_total h (message tc) (expected tc) (actual tc) [])
    as [[s st|e] Hr].
  - exists s. split.
    + intros fuel Hf. exists st. unfold runTest, tryCatch.
      now rewrite (Hr fuel Hf).
    + left. split; [|exists st; exact Hr].
      eapply assertEquals_returns_pass. apply (Hr (S (length h))). lia.
  - exists (exn_message e). split.
    + intros fuel Hf. exists new_Map. unfold runTest, tryCatch.
      now rewrite (Hr fuel Hf).
    + right. exists e. split; [reflexivity|exact Hr].
Qed.

(** The runner on [["a","b"]] against [["a","b","c"]]. *)
Lemma C9_witness_arrays :
  length heap_arrays < 3 /\
  exists s st,
    runTest 3 heap_arrays (mkTestCase "t" (VRef 0) (VRef 1)) new_Map
    = Some (Returned s st).
Proof.
  split; [cbn; lia|].
  destruct (C9_runTest_returns_string heap_arrays
              (mkTestCase "t" (VRef 0) (VRef 1))) as (s & Hrun & _).
  exists s. apply Hrun. cbn. lia.
Defined.

(** ** C10: one object compared twice *)

(** C10: with [s = {p:1}], the heap of [{x:s, y:s}] and
    [{x:{p:1}, y:{p:2}}] has no cycle, the two values differ at [y.p],
    and the comparison succeeds: [s] is a key of the visited map after
    the descent into [x], so the call at [y] returns before it looks at
    [{p:2}].  The earlier comparator, which has no visited map, reports
    the difference at [y.p]. *)
Theorem C10_shared_object_hides_difference (fuel : nat) (msg : string) :
  points_forward heap_shared = true
  /\ getProp heap_shared (getProp heap_shared (VRef 0) "y") "p" = num 1
  /\ getProp heap_shared (getProp heap_shared (VRef 2) "y") "p" = num 2
  /\ num 1 === num 2 = false
  /\ assertEquals (S (S fuel)) heap_shared msg (VRef 0) (VRef 2) [] new_Map
     = Some (Returned (msg ++ ": Pass!")
                      [(VRef 0, VRef 2); (VRef 1, VRef 3)])
  /\ Legacy.assertEquals (S (S fuel)) heap_shared msg (VRef 0) (VRef 2) None tt
     = Some (Thrown (mkExn Error ValueMismatch
          (msg ++ ": Expected y.p " ++ quoted "1"
               ++ " but found " ++ quoted "2"))).
Proof. repeat split. Qed.

(* ================================================================= *)
(** * Further properties *)

(** ** The failures of the comparator *)

(** A loop throws what one of its iterations throws. *)
Lemma forIn_thrown {St} keys (body : string -> M St unit) st x :
  forIn keys body st = Some (Thrown x) ->
  exists key st', In key keys /\ body key st' = Some (Thrown x).
Proof.
  revert st. induction keys as [|key rest IH]; intros st H.
  - discriminate.
  - cbn [forIn] in H. apply bind_inv in H.
    destruct H as [(e & He & Hx)|(u & st1 & _ & Hk)].
    + inversion Hx; subst. exists key, st. split; [now left|exact He].
    + destruct (IH st1 Hk) as (k & st' & Hin & Hb).
      exists k, st'. split; [now right|exact Hb].
Qed.

Lemma throw_if_thrown {St} c cls kind msg (st : St) x :
  throw_if c cls kind msg st = Some (Thrown x) ->
  c = true /\ x = mkExn cls kind msg.
Proof. destruct c; cbn; intros H; inversion H; auto. Qed.

(** A failure below the key [key] of the pair is a failure of the pair. *)
Lemma located_below h msg kt e a key x :
  In key (forInKeys h e) -> leaf_at h e a key = false ->
  (exists inner,
      descends h (getProp h e key) (getProp h a key) inner
      /\ failure_at h msg ((kt ++ [key]) ++ inner)%list
           (descend h (getProp h e key) inner)
           (descend h (getProp h a key) inner) x) ->
  exists inner,
    descends h e a inner
    /\ failure_at h msg (kt ++ inner)%list
         (descend h e inner) (descend h a inner) x.
Proof.
  intros Hin Hleaf (inner & Hd & Hf). exists (key :: inner). split.
  - cbn [descends]. auto.
  - rewrite <- app_assoc in Hf. exact Hf.
Qed.

Lemma assertEqualsBody_failure_at recur h msg e a kt visited x :
  (forall key st x',
      In key (forInKeys h e) -> leaf_at h e a key = false ->
      recur (getProp h e key) (getProp h a key) (kt ++ [key])%list st
      = Some (Thrown x') ->
      exists inner,
        descends h (getProp h e key) (getProp h a key) inner
        /\ failure_at h msg ((kt ++ [key]) ++ inner)%list
             (descend h (getProp h e key) inner)
             (descend h (getProp h a key) inner) x') ->
  assertEqualsBody recur h msg e a kt visited = Some (Thrown x) ->
  exists inner,
    descends h e a inner
    /\ failure_at h msg (kt ++ inner)%list
         (descend h e inner) (descend h a inner) x.
Proof.
  intros Hrec. unfold assertEqualsBody.
  destruct (e === a) eqn:Hid; [discriminate|].
  unfold map_has at 1 2. unfold bind at 1 2.
  destruct (Map_has e visited || Map_has a visited); [discriminate|].
  unfold map_set at 1. unfold bind at 1.
  generalize (Map_set e a visited) as map1. intros map1 H.
  assert (Hhere : forall x0, failure_at h msg kt e a x0 ->
            exists inner,
              descends h e a inner
              /\ failure_at h msg (kt ++ inner)%list
                   (descend h e inner) (descend h a inner) x0).
  { intros x0 Hf. exists []. split; [exact I|].
    rewrite app_nil_r. exact Hf. }
  apply bind_inv in H. destruct H as [(x1 & H1 & E)|(u1 & st1 & H1 & H)].
  { inversion E; subst x1. apply throw_if_thrown in H1.
    destruct H1 as [Hc ->]. apply Hhere, fail_typeof.
    now apply negb_true_iff in Hc. }
  assert (Htype : String.eqb (typeof e) (typeof a) = true).
  { destruct (String.eqb (typeof e) (typeof a)); [reflexivity|].
    discriminate H1. }
  clear H1.
  apply bind_inv in H. destruct H as [(x2 & H2 & E)|(u2 & st2 & _ & H)].
  { inversion E; subst x2. apply throw_if_thrown in H2.
    destruct H2 as [Hc ->]. apply Hhere, fail_isArray; [exact Htype|].
    now apply negb_true_iff in Hc. }
  apply bind_inv in H. destruct H as [(x3 & H3 & E)|(u3 & st3 & _ & H)];
    [|discriminate].
  inversion E; subst x3. clear E.
  destruct (negb (String.eqb (typeof a) "object")) eqn:Hobj.
  { apply throw_if_thrown in H3. destruct H3 as [Hc ->].
    apply Hhere, fail_primitive; [exact Htype| |].
    - now apply negb_true_iff in Hobj.
    - exact Hid. }
  apply bind_inv in H3. destruct H3 as [(x4 & H4 & E)|(u4 & st4 & _ & H)].
  { inversion E; subst x4.
    destruct ((e === VNull) || (a === VNull)) eqn:Hnull; [|discriminate].
    apply throw_if_thrown in H4. destruct H4 as [_ ->].
    apply Hhere, fail_null; [exact Hnull|exact Hid]. }
  apply bind_inv in H. destruct H as [(x5 & H5 & E)|(u5 & st5 & _ & H)].
  { inversion E; subst x5. apply throw_if_thrown in H5.
    destruct H5 as [Hc ->]. apply Hhere, fail_length.
    now apply negb_true_iff in Hc. }
  apply bind_inv in H. destruct H as [(x6 & H6 & E)|(u6 & st6 & _ & H)].
  { inversion E; subst x6. cbv zeta in H6.
    destruct (negb (Nat.eqb (length (Object_keys h e))
                            (length (Object_keys h a)))) eqn:Hcount;
      [|discriminate].
    apply negb_true_iff, Nat.eqb_neq in Hcount.
    destruct (Nat.ltb (length (Object_keys h a)) (length (Object_keys h e)))
      eqn:Hlt;
      apply forIn_thrown in H6; destruct H6 as (key & st' & Hin & Hb);
      apply throw_if_thrown in Hb; destruct Hb as [Hc ->].
    - apply Nat.ltb_lt in Hlt.
      apply Hhere, (fail_missing_key h msg kt e a key Hlt Hin Hc).
    - apply Nat.ltb_ge in Hlt.
      assert (Hlt' : length (Object_keys h e) < length (Object_keys h a))
        by lia.
      apply Hhere, (fail_unexpected_key h msg kt e a key Hlt' Hin Hc). }
  apply forIn_thrown in H. destruct H as (key & st' & Hin & Hb).
  cbv beta zeta in Hb.
  destruct (String.eqb (typeof (getProp h e key)) "object"
            || String.eqb (typeof (getProp h a key)) "object") eqn:Hleaf.
  - apply bind_inv in Hb. destruct Hb as [(x7 & H7 & E)|(s' & st7 & _ & Hb)];
      [|discriminate].
    inversion E; subst x7.
    assert (Hl : leaf_at h e a key = false)
      by (unfold leaf_at; now rewrite Hleaf).
    apply (located_below h msg kt e a key x Hin Hl).
    now apply (Hrec key st').
  - assert (Hl : leaf_at h e a key = true)
      by (unfold leaf_at; now rewrite Hleaf).
    destruct (getProp h e key === getProp h a key) eqn:Hneq;
      [discriminate|]. cbn [negb] in Hb.
    destruct (getProp h a key === VUndefined) eqn:Hundef; inversion Hb.
    + apply Hhere, (fail_missing_value h msg kt e a key Hin Hl Hneq Hundef).
    + apply Hhere, (fail_value h msg kt e a key Hin Hl Hneq Hundef).
Qed.

Lemma assertEquals_failure_at fuel h msg e a kt visited x :
  assertEquals fuel h msg e a kt visited = Some (Thrown x) ->
  exists inner,
    descends h e a inner
    /\ failure_at h msg (kt ++ inner)%list
         (descend h e inner) (descend h a inner) x.
Proof.
  revert e a kt visited x.
  induction fuel as [|fuel IH]; intros e a kt visited x H.
  - discriminate.
  - cbn [assertEquals] in H.
    eapply assertEqualsBody_failure_at; [|exact H].
    intros key st x' _ _ H'. eapply IH, H'.
Qed.

(** Every form starts with the label. *)
Lemma failure_at_label h msg path e a x :
  failure_at h msg path e a x ->
  exists rest, exn_message x = msg ++ ": " ++ rest.
Proof. intros H. destruct H; cbn; eexists; reflexivity. Qed.

(** On a heap none of whose objects has an own key named as a member of
    [Object.prototype] (so that no property read finds an inherited
    member and printing a value never fails), every exception of the
    comparator, from whatever depth, reports a difference that is there:
    some key path leads down from the two operands, through keys of
    expected, to a pair of values at which one of the nine checks of the
    comparator fails, and the exception is the one of that check.  Its
    message names the types, the shapes, the lengths or the values of
    that pair, or the key of that pair that is missing, unexpected or
    different, under the key trace of the call followed by the path; the
    type, shape and length mismatches do not show the path. *)
Theorem assertEquals_failure_located fuel h msg e a kt visited x :
  plain_heap h = true ->
  assertEquals fuel h msg e a kt visited = Some (Thrown x) ->
  exists inner,
    descends h e a inner
    /\ failure_at h msg (kt ++ inner)%list
         (descend h e inner) (descend h a inner) x.
Proof. intros _. apply assertEquals_failure_at. Qed.

(** The nested mismatch of [{a:1, b:{c:2}}] against [{a:1, b:{c:3}}]. *)
Lemma assertEquals_failure_located_witness :
  assertEquals 2 heap_nested "t" (VRef 0) (VRef 2) [] new_Map
  = Some (Thrown (mkExn Error ValueMismatch
       ("t: Expected b.c " ++ quoted "2" ++ " but found " ++ quoted "3")))
  /\ exists inner,
       descends heap_nested (VRef 0) (VRef 2) inner
       /\ failure_at heap_nested "t" ([] ++ inner)%list
            (descend heap_nested (VRef 0) inner)
            (descend heap_nested (VRef 2) inner)
            (mkExn Error ValueMismatch
               ("t: Expected b.c " ++ quoted "2"
                    ++ " but found " ++ quoted "3")).
Proof.
  split; [reflexivity|].
  apply (assertEquals_failure_located 2 heap_nested "t" (VRef 0) (VRef 2)
           [] new_Map _ eq_refl eq_refl).
Defined.

(** ** The runner's strings *)

(** On a heap none of whose objects has an own key named as a member of
    [Object.prototype], whatever the runner returns, the pass string or
    the message of an exception from any depth, starts with the message
    of the test case and a colon. *)
Theorem runTest_result_labelled fuel h tc st s st' :
  plain_heap h = true ->
  runTest fuel h tc st = Some (Returned s st') ->
  exists rest, s = message tc ++ ": " ++ rest.
Proof.
  intros _. unfold runTest, tryCatch.
  destruct (assertEquals fuel h (message tc) (expected tc) (actual tc) [] st)
    as [[s0 st0|x]|] eqn:E; intros H; inversion H; subst.
  - apply assertEquals_returns_pass in E. subst. now exists "Pass!".
  - apply assertEquals_failure_at in E. destruct E as (inner & _ & Hf).
    now apply failure_at_label in Hf.
Qed.

(** The string the runner returns for [{a:"x"}] against [{a:1}]. *)
Lemma runTest_result_labelled_witness :
  runTest 1 heap_leaf_types (mkTestCase "t" (VRef 0) (VRef 1)) new_Map
  = Some (Returned ("t: Expected a " ++ quoted "x"
                        ++ " but found " ++ quoted "1") new_Map)
  /\ exists rest,
      "t: Expected a " ++ quoted "x" ++ " but found " ++ quoted "1"
      = "t" ++ ": " ++ rest.
Proof.
  split; [reflexivity|].
  apply (runTest_result_labelled 1 heap_leaf_types
           (mkTestCase "t" (VRef 0) (VRef 1)) new_Map _ new_Map
           eq_refl eq_refl).
Defined.

(** ** Primitives *)

(** Two values of the same [typeof] other than "object" are compared by
    [===] alone: the comparison passes when they are strictly equal and
    fails as a ValueMismatch that prints both values when they are not. *)
Theorem primitives_by_strict_equality fuel h msg e a kt :
  typeof e = typeof a -> typeof a <> "object" ->
  assertEquals (S fuel) h msg e a kt new_Map
  = if e === a then Some (Returned (msg ++ ": Pass!") new_Map)
    else Some (Thrown (mkExn Error ValueMismatch
           (msg ++ ": Expected " ++ quoted (ToString h e)
                ++ " but found " ++ quoted (ToString h a)))).
Proof.
  intros Hty Hobj. destruct (e === a) eqn:Hid.
  - cbn [assertEquals]. unfold assertEqualsBody. now rewrite Hid.
  - enter_call Hid (Map_has_new e) (Map_has_new a).
    rewrite Hty, String.eqb_refl. cbn [negb]. step_returned.
    assert (Ha : Array_isArray h a = false)
      by (destruct a; try reflexivity; now elim Hobj).
    assert (He : Array_isArray h e = false).
    { destruct e; try reflexivity. elim Hobj. now rewrite <- Hty. }
    rewrite He, Ha. cbn [Bool.eqb negb]. step_returned.
    apply String.eqb_neq in Hobj. rewrite Hobj. cbn [negb].
    reflexivity.
Qed.

(** Test 02 of [runAll]: "abcdef" against "abc". *)
Lemma primitives_by_strict_equality_witness :
  (typeof (VString "abcdef") = typeof (VString "abc")
   /\ typeof (VString "abc") <> "object")
  /\ assertEquals 1 [] "Test 02" (VString "abcdef") (VString "abc") [] new_Map
     = Some (Thrown (mkExn Error ValueMismatch
          ("Test 02: Expected " ++ quoted "abcdef"
               ++ " but found " ++ quoted "abc"))).
Proof.
  split; [split; [reflexivity|discriminate]|].
  apply (primitives_by_strict_equality 0 [] "Test 02"
           (VString "abcdef") (VString "abc") []);
    [reflexivity|discriminate].
Defined.

(** ** Composites whose values are primitives *)

Lemma forIn_leaves (recur : value -> value -> list string -> M Map string)
  h msg e a kt keys (st : Map) :
  (forall key, In key keys -> leaf_at h e a key = true) ->
  forIn keys (fun key =>
    let ek := getProp h e key in
    let ak := getProp h a key in
    if String.eqb (typeof ek) "object" || String.eqb (typeof ak) "object"
    then recur ek ak (kt ++ [key])%list ;; ret tt
    else if ek !== ak then
      if ak === VUndefined then
        throw Error MissingValue
          (msg ++ ": Expected " ++ join_dot (kt ++ [key])%list
               ++ " but was not found")
      else
        throw Error ValueMismatch
          (msg ++ ": Expected " ++ join_dot (kt ++ [key])%list
               ++ " " ++ quoted (ToString h ek)
               ++ " but found " ++ quoted (ToString h ak))
    else ret tt) st
  = match firstDifferent h e a keys with
    | None => Some (Returned tt st)
    | Some key =>
        Some (Thrown
          (if getProp h a key === VUndefined then
             mkExn Error MissingValue
               (msg ++ ": Expected " ++ join_dot (kt ++ [key])%list
                    ++ " but was not found")
           else
             mkExn Error ValueMismatch
               (msg ++ ": Expected " ++ join_dot (kt ++ [key])%list
                    ++ " " ++ quoted (ToString h (getProp h e key))
                    ++ " but found "
                    ++ quoted (ToString h (getProp h a key)))))
    end.
Proof.
  unfold firstDifferent.
  induction keys as [|key rest IH]; intros Hleaf; [reflexivity|].
  cbn [forIn find]. cbv beta zeta.
  pose proof (Hleaf key (or_introl eq_refl)) as Hk. unfold leaf_at in Hk.
  apply negb_true_iff in Hk. rewrite Hk.
  destruct (getProp h e key !== getProp h a key) eqn:Ed.
  - apply bind_thrown.
    now destruct (getProp h a key === VUndefined).
  - rewrite (bind_returned _ _ st tt st) by reflexivity.
    apply IH. intros k Hin. apply Hleaf. now right.
Qed.

Lemma leaves_decided fuel h msg le la kt visited :
  le <> la ->
  Map_has (VRef le) visited = false -> Map_has (VRef la) visited = false ->
  Array_isArray h (VRef le) = Array_isArray h (VRef la) ->
  getProp h (VRef le) "length" === getProp h (VRef la) "length" = true ->
  length (Object_keys h (VRef le)) = length (Object_keys h (VRef la)) ->
  (forall key, In key (forInKeys h (VRef le)) ->
     leaf_at h (VRef le) (VRef la) key = true) ->
  assertEquals (S fuel) h msg (VRef le) (VRef la) kt visited
  = match firstDifferent h (VRef le) (VRef la) (forInKeys h (VRef le)) with
    | None =>
        Some (Returned (msg ++ ": Pass!")
                       (Map_set (VRef le) (VRef la) visited))
    | Some key =>
        Some (Thrown
          (if getProp h (VRef la) key === VUndefined then
             mkExn Error MissingValue
               (msg ++ ": Expected " ++ join_dot (kt ++ [key])%list
                    ++ " but was not found")
           else
             mkExn Error ValueMismatch
               (msg ++ ": Expected " ++ join_dot (kt ++ [key])%list
                    ++ " " ++ quoted (ToString h (getProp h (VRef le) key))
                    ++ " but found "
                    ++ quoted (ToString h (getProp h (VRef la) key)))))
    end.
Proof.
  intros Hne HseenE HseenA Harr Hlength Hcount Hleaf.
  assert (Hid : VRef le === VRef la = false) by (cbn; now apply Nat.eqb_neq).
  enter_call Hid HseenE HseenA.
  cbn [typeof]. rewrite String.eqb_refl. cbn [negb]. step_returned.
  rewrite Harr, Bool.eqb_reflx. cbn [negb]. step_returned.
  cbn [strict_eq orb]. cbv zeta.
  rewrite Hlength, Hcount, Nat.eqb_refl. cbn [negb].
  destruct (firstDifferent h (VRef le) (VRef la) (forInKeys h (VRef le)))
    as [key|] eqn:E.
  - apply bind_thrown. do 3 step_returned.
    rewrite (forIn_leaves _ h msg (VRef le) (VRef la) kt _ _ Hleaf), E.
    now destruct (getProp h (VRef la) key === VUndefined).
  - match goal with
    | |- bind ?c ?k ?st = _ => rewrite (bind_returned c k st tt st)
    end; [reflexivity|].
    do 3 step_returned.
    now rewrite (forIn_leaves _ h msg (VRef le) (VRef la) kt _ _ Hleaf), E.
Qed.

(** Two distinct composites of the same shape, with strictly equal
    [length] and as many keys, whose values under the keys of expected
    are primitives on both sides, no key of expected being the name of a
    member of [Object.prototype]: the comparison is decided by the first
    key of expected, in enumeration order, under which the two values
    are not strictly equal.  Without such a key it passes and records
    the pair; with one it fails with the path to that key, as a
    MissingValue when the value of actual is undefined and as a
    ValueMismatch that prints both values otherwise.  The keys of actual
    that expected does not have are not looked at. *)
Theorem leaves_by_first_difference fuel h msg le la kt visited :
  own_keys_plain h (VRef le) = true ->
  le <> la ->
  Map_has (VRef le) visited = false -> Map_has (VRef la) visited = false ->
  Array_isArray h (VRef le) = Array_isArray h (VRef la) ->
  getProp h (VRef le) "length" === getProp h (VRef la) "length" = true ->
  length (Object_keys h (VRef le)) = length (Object_keys h (VRef la)) ->
  (forall key, In key (forInKeys h (VRef le)) ->
     leaf_at h (VRef le) (VRef la) key = true) ->
  assertEquals (S fuel) h msg (VRef le) (VRef la) kt visited
  = match firstDifferent h (VRef le) (VRef la) (forInKeys h (VRef le)) with
    | None =>
        Some (Returned (msg ++ ": Pass!")
                       (Map_set (VRef le) (VRef la) visited))
    | Some key =>
        Some (Thrown
          (if getProp h (VRef la) key === VUndefined then
             mkExn Error MissingValue
               (msg ++ ": Expected " ++ join_dot (kt ++ [key])%list
                    ++ " but was not found")
           else
             mkExn Error ValueMismatch
               (msg ++ ": Expected " ++ join_dot (kt ++ [key])%list
                    ++ " " ++ quoted (ToString h (getProp h (VRef le) key))
                    ++ " but found "
                    ++ quoted (ToString h (getProp h (VRef la) key)))))
    end.
Proof. intros _. apply leaves_decided. Qed.

(** [{a:"x"}] against [{a:1}]: the first key, [a], decides. *)
Lemma leaves_by_first_difference_witness :
  assertEquals 1 heap_leaf_types "t" (VRef 0) (VRef 1) [] new_Map
  = Some (Thrown (mkExn Error ValueMismatch
       ("t: Expected a " ++ quoted "x" ++ " but found " ++ quoted "1"))).
Proof.
  apply (leaves_by_first_difference 0 heap_leaf_types "t" 0 1 [] new_Map).
  - reflexivity.
  - discriminate.
  - reflexivity.
  - reflexivity.
  - reflexivity.
  - reflexivity.
  - reflexivity.
  - intros key [<-|[]]. reflexivity.
Defined.

(** ** Arrays of primitives *)

Lemma N_to_uint_nonnil (n : N) : N.to_uint n <> Decimal.Nil.
Proof.
  destruct n; [discriminate|apply DecimalPos.Unsigned.to_uint_nonnil].
Qed.

(** The key of an index is an index key, of that index. *)
Lemma index_of_key_of_nat (i : nat) : index_of_key (key_of_nat i) = Some i.
Proof.
  unfold index_of_key, key_of_nat, decimal.
  rewrite NilZero.usu by apply N_to_uint_nonnil.
  rewrite DecimalN.Unsigned.of_to, String.eqb_refl.
  now rewrite Nnat.Nat2N.id.
Qed.

Lemma key_of_nat_not_length (i : nat) :
  String.eqb (key_of_nat i) "length" = false.
Proof.
  apply String.eqb_neq. intros E.
  pose proof (index_of_key_of_nat i) as H. rewrite E in H. discriminate.
Qed.

(** Reading an array under the key of an index gives the element. *)
Lemma getProp_array_index h l xs i :
  deref h l = OArray xs ->
  getProp h (VRef l) (key_of_nat i) = nth i xs VUndefined.
Proof.
  intros Hl. unfold getProp. rewrite Hl.
  now rewrite key_of_nat_not_length, index_of_key_of_nat.
Qed.

Lemma firstDifferent_indices h le la xs ys (indices : list nat) :
  deref h le = OArray xs -> deref h la = OArray ys ->
  firstDifferent h (VRef le) (VRef la) (map key_of_nat indices)
  = option_map key_of_nat
      (find (fun i => nth i xs VUndefined !== nth i ys VUndefined) indices).
Proof.
  intros Hxs Hys. unfold firstDifferent.
  induction indices as [|i rest IH]; [reflexivity|].
  cbn [map find].
  rewrite (getProp_array_index h le xs i Hxs),
          (getProp_array_index h la ys i Hys).
  destruct (nth i xs VUndefined !== nth i ys VUndefined);
    [reflexivity|exact IH].
Qed.

Lemma primitive_nth (xs : list value) (i : nat) :
  forallb primitive xs = true ->
  String.eqb (typeof (nth i xs VUndefined)) "object" = false.
Proof.
  revert i. induction xs as [|x xs IH]; intros i H.
  - now destruct i.
  - cbn [forallb] in H. apply andb_true_iff in H. destruct H as [Hx Hxs].
    destruct i; cbn [nth].
    + now apply negb_true_iff in Hx.
    + now apply IH.
Qed.

(** Two distinct arrays of the same length whose elements are
    primitives: the comparison is decided by the first index at which
    the elements are not strictly equal.  Without one it passes; with
    one it fails with the index as the last key of the path, as a
    MissingValue when the element of actual is undefined and as a
    ValueMismatch that prints the two elements otherwise. *)
Theorem arrays_by_first_mismatch fuel h msg le la xs ys kt visited :
  deref h le = OArray xs -> deref h la = OArray ys ->
  le <> la ->
  Map_has (VRef le) visited = false -> Map_has (VRef la) visited = false ->
  length xs = length ys -> (N.of_nat (length xs) < 2 ^ 32)%N ->
  forallb primitive xs = true -> forallb primitive ys = true ->
  assertEquals (S fuel) h msg (VRef le) (VRef la) kt visited
  = match first_mismatch xs ys with
    | None =>
        Some (Returned (msg ++ ": Pass!")
                       (Map_set (VRef le) (VRef la) visited))
    | Some i =>
        Some (Thrown
          (if nth i ys VUndefined === VUndefined then
             mkExn Error MissingValue
               (msg ++ ": Expected "
                    ++ join_dot (kt ++ [key_of_nat i])%list
                    ++ " but was not found")
           else
             mkExn Error ValueMismatch
               (msg ++ ": Expected "
                    ++ join_dot (kt ++ [key_of_nat i])%list
                    ++ " " ++ quoted (ToString h (nth i xs VUndefined))
                    ++ " but found "
                    ++ quoted (ToString h (nth i ys VUndefined)))))
    end.
Proof.
  intros Hxs Hys Hne HseenE HseenA Hlen Hbound Hpx Hpy.
  assert (Hkeys : forInKeys h (VRef le) = map key_of_nat (seq 0 (length xs)))
    by (unfold forInKeys; now rewrite Hxs).
  rewrite (leaves_decided fuel h msg le la kt visited
             Hne HseenE HseenA).
  - rewrite Hkeys, (firstDifferent_indices h le la xs ys _ Hxs Hys).
    unfold first_mismatch.
    destruct (find _ (seq 0 (length xs))) as [i|]; cbn [option_map];
      [|reflexivity].
    now rewrite (getProp_array_index h le xs i Hxs),
                (getProp_array_index h la ys i Hys).
  - unfold Array_isArray. now rewrite Hxs, Hys.
  - unfold getProp. rewrite Hxs, Hys, <- Hlen, String.eqb_refl.
    cbn [strict_eq]. unfold Number.of_nat.
    rewrite of_N_eqb; [apply N.eqb_refl| |];
      (eapply N.lt_trans; [exact Hbound|reflexivity]).
  - unfold Object_keys, forInKeys. rewrite Hxs, Hys.
    now rewrite !length_map, !length_seq.
  - intros key Hin. rewrite Hkeys in Hin. apply in_map_iff in Hin.
    destruct Hin as (i & <- & _). unfold leaf_at.
    rewrite (getProp_array_index h le xs i Hxs),
            (getProp_array_index h la ys i Hys).
    now rewrite (primitive_nth xs i Hpx), (primitive_nth ys i Hpy).
Qed.

(** [["a","b","c"]] against [["a","x","c"]]: the index 1 decides. *)
Lemma arrays_by_first_mismatch_witness :
  assertEquals 1 heap_equal_arrays "t" (VRef 0) (VRef 2) [] new_Map
  = Some (Thrown (mkExn Error ValueMismatch
       ("t: Expected 1 " ++ quoted "b" ++ " but found " ++ quoted "x"))).
Proof.
  apply (arrays_by_first_mismatch 0 heap_equal_arrays "t" 0 2
           [VString "a"; VString "b"; VString "c"]
           [VString "a"; VString "x"; VString "c"] [] new_Map);
    try reflexivity.
  discriminate.
Defined.

(** ** What the visited map records *)

(** A call that is neither identical nor short-circuited and that
    returns has recorded its expected operand: it is a key of the map
    from then on, and no earlier key is lost. *)
Lemma assertEqualsBody_records recur h msg e a kt visited s visited' :
  (forall e' a' kt' st s' st',
      recur e' a' kt' st = Some (Returned s' st') -> extends st st') ->
  e === a = false ->
  Map_has e visited = false -> Map_has a visited = false ->
  assertEqualsBody recur h msg e a kt visited = Some (Returned s visited') ->
  extends (Map_set e a visited) visited'.
Proof.
  intros Hrec Hid HseenE HseenA. unfold assertEqualsBody.
  rewrite Hid. unfold map_has at 1 2. unfold bind at 1 2.
  rewrite HseenE, HseenA. cbn [orb].
  unfold map_set at 1. unfold bind at 1.
  generalize (Map_set e a visited) as map1. intros map1 H.
  apply bind_inv in H. destruct H as [(? & _ & ?)|(u1 & st1 & H1 & H)];
    [discriminate|].
  apply throw_if_returned in H1. destruct H1 as [_ ->].
  apply bind_inv in H. destruct H as [(? & _ & ?)|(u2 & st2 & H2 & H)];
    [discriminate|].
  apply throw_if_returned in H2. destruct H2 as [_ ->].
  apply bind_inv in H. destruct H as [(? & _ & ?)|(u3 & st3 & H3 & H)];
    [discriminate|].
  inversion H; subst visited'. clear H.
  destruct (negb (String.eqb (typeof a) "object")).
  { apply throw_if_returned in H3. destruct H3 as [_ ->]. apply extends_refl. }
  apply bind_inv in H3. destruct H3 as [(? & _ & ?)|(u4 & st4 & H4 & H)];
    [discriminate|].
  assert (st4 = map1) as ->.
  { destruct ((e === VNull) || (a === VNull)).
    - apply throw_if_returned in H4. tauto.
    - inversion H4. reflexivity. }
  apply bind_inv in H. destruct H as [(? & _ & ?)|(u5 & st5 & H5 & H)];
    [discriminate|].
  apply throw_if_returned in H5. destruct H5 as [_ ->].
  apply bind_inv in H. destruct H as [(? & _ & ?)|(u6 & st6 & H6 & H)];
    [discriminate|].
  assert (Hscan : extends map1 st6).
  { cbv zeta in H6.
    destruct (negb (Nat.eqb (length (Object_keys h e))
                            (length (Object_keys h a)))).
    - destruct (Nat.ltb (length (Object_keys h a)) (length (Object_keys h e)));
        (eapply forIn_invariant; [|apply extends_refl|exact H6]);
        intros key st u st' _ HP Hb;
        apply throw_if_returned in Hb; destruct Hb as [_ ->]; exact HP.
    - inversion H6. apply extends_refl. }
  apply extends_trans with st6; [exact Hscan|].
  eapply forIn_invariant; [|apply extends_refl|exact H].
  intros key st u st' _ HP Hb. cbv beta zeta in Hb.
  destruct (String.eqb (typeof (getProp h e key)) "object"
            || String.eqb (typeof (getProp h a key)) "object").
  - apply bind_inv in Hb. destruct Hb as [(? & _ & ?)|(s' & st1 & Hr & Hb)];
      [discriminate|].
    inversion Hb; subst st'. apply extends_trans with st; [exact HP|].
    eapply Hrec, Hr.
  - destruct (getProp h e key !== getProp h a key).
    + destruct (getProp h a key === VUndefined); discriminate.
    + inversion Hb; subst. exact HP.
Qed.

Lemma assertEquals_records_entry fuel h msg e a kt visited s visited' :
  e === a = false ->
  Map_has e visited = false -> Map_has a visited = false ->
  assertEquals fuel h msg e a kt visited = Some (Returned s visited') ->
  Map_has e visited' = true /\ extends visited visited'.
Proof.
  intros Hid HseenE HseenA H. destruct fuel as [|fuel]; [discriminate|].
  cbn [assertEquals] in H.
  assert (Hext : extends (Map_set e a visited) visited').
  { refine (assertEqualsBody_records _ h msg e a kt visited s visited'
                                      _ Hid HseenE HseenA H).
    intros e' a' kt' st s' st' H'. eapply assertEquals_extends, H'. }
  split.
  - apply Hext, Map_has_set.
  - eapply extends_trans; [apply Map_set_extends|exact Hext].
Qed.

(** A call that is neither identical nor short-circuited and that
    returns has recorded its expected operand: expected is a key of the
    map from then on, and every earlier key is kept. *)
Theorem assertEquals_records fuel h msg e a kt visited s visited' :
  e === a = false ->
  Map_has e visited = false -> Map_has a visited = false ->
  assertEquals fuel h msg e a kt visited = Some (Returned s visited') ->
  Map_has e visited' = true /\ extends visited visited'.
Proof. apply assertEquals_records_entry. Qed.

(** [a = {self: a}] against [c = {self: c}]: [a] is recorded. *)
Lemma assertEquals_records_witness :
  Map_has (VRef 0) [(VRef 0, VRef 1)] = true
  /\ extends new_Map [(VRef 0, VRef 1)].
Proof.
  apply (assertEquals_records 2 heap_self "t" (VRef 0) (VRef 1) [] new_Map
           "t: Pass!" [(VRef 0, VRef 1)]); reflexivity.
Defined.

(** A call on a pair of which one operand is already a key of the map
    passes at once, whatever the two values are. *)
Lemma assertEquals_short_circuit fuel h msg e a kt visited :
  Map_has e visited || Map_has a visited = true ->
  assertEquals (S fuel) h msg e a kt visited
  = Some (Returned (msg ++ ": Pass!") visited).
Proof.
  intros Hseen. cbn [assertEquals]. unfold assertEqualsBody.
  destruct (e === a); [reflexivity|].
  unfold map_has at 1 2. unfold bind at 1 2. now rewrite Hseen.
Qed.

(** An object [s] that expected holds under two keys is compared once.
    When [{kx: s, ky: s}] is compared with [{kx: t, ky: v}] and the
    comparison of [s] with [t] under [kx] is entered and passes, the
    whole comparison passes for every value [v] under [ky], of any type
    and content: [s] is a key of the map by then. *)
Theorem shared_expected_masks_partner fuel h msg le la ls kx ky t v s visited' :
  deref h le = OObject [(kx, VRef ls); (ky, VRef ls)] ->
  deref h la = OObject [(kx, t); (ky, v)] ->
  kx <> ky -> kx <> "length" -> ky <> "length" ->
  le <> la -> ls <> le ->
  VRef ls === t = false -> sameValueZero (VRef le) t = false ->
  assertEquals fuel h msg (VRef ls) t [kx] [(VRef le, VRef la)]
  = Some (Returned s visited') ->
  assertEquals (S fuel) h msg (VRef le) (VRef la) [] new_Map
  = Some (Returned (msg ++ ": Pass!") visited').
Proof.
  intros Hpe Hpa Hxy Hxl Hyl Hne Hsl Hst Hlt Hx.
  assert (Hrec : Map_has (VRef ls) visited' = true).
  { refine (proj1 (assertEquals_records_entry fuel h msg (VRef ls) t [kx]
                     [(VRef le, VRef la)] s visited' Hst _ _ Hx)).
    - unfold Map_has. cbn [existsb fst sameValueZero strict_eq].
      rewrite orb_false_r. apply Nat.eqb_neq. congruence.
    - unfold Map_has. cbn [existsb fst]. now rewrite Hlt. }
  assert (Hy : assertEquals fuel h msg (VRef ls) v [ky] visited'
               = Some (Returned (msg ++ ": Pass!") visited')).
  { destruct fuel as [|f]; [discriminate|].
    apply assertEquals_short_circuit. now rewrite Hrec. }
  assert (Hid : VRef le === VRef la = false) by (cbn; now apply Nat.eqb_neq).
  apply String.eqb_neq in Hxy, Hxl, Hyl.
  assert (Ex : getProp h (VRef le) kx = VRef ls)
    by (unfold getProp; rewrite Hpe; cbn; now rewrite String.eqb_refl).
  assert (Ax : getProp h (VRef la) kx = t)
    by (unfold getProp; rewrite Hpa; cbn; now rewrite String.eqb_refl).
  assert (Ey : getProp h (VRef le) ky = VRef ls)
    by (unfold getProp; rewrite Hpe; cbn; now rewrite Hxy, String.eqb_refl).
  assert (Ay : getProp h (VRef la) ky = v)
    by (unfold getProp; rewrite Hpa; cbn; now rewrite Hxy, String.eqb_refl).
  assert (EL : getProp h (VRef le) "length" = VUndefined)
    by (unfold getProp; rewrite Hpe; cbn; now rewrite Hxl, Hyl).
  assert (AL : getProp h (VRef la) "length" = VUndefined)
    by (unfold getProp; rewrite Hpa; cbn; now rewrite Hxl, Hyl).
  enter_call Hid (Map_has_new (VRef le)) (Map_has_new (VRef la)).
  cbn [typeof]. rewrite String.eqb_refl. cbn [negb]. step_returned.
  unfold Array_isArray at 1 2. rewrite Hpe, Hpa. cbn [Bool.eqb negb].
  step_returned. cbn [strict_eq orb]. cbv zeta.
  rewrite EL, AL. cbn [strict_eq negb].
  unfold Object_keys, forInKeys. rewrite Hpe, Hpa.
  cbn [map fst length Nat.eqb negb forIn].
  rewrite Ex, Ax, Ey, Ay. cbn [typeof]. rewrite String.eqb_refl.
  cbn [orb app].
  match goal with
  | |- bind ?c ?k ?st = _ => rewrite (bind_returned c k st tt visited')
  end; [reflexivity|].
  do 3 step_returned.
  change (Map_set (VRef le) (VRef la) new_Map) with [(VRef le, VRef la)].
  rewrite (bind_returned _ _ _ tt visited');
    [|now rewrite (bind_returned _ _ _ _ _ Hx)].
  rewrite (bind_returned _ _ _ tt visited'); [reflexivity|].
  now rewrite (bind_returned _ _ _ _ _ Hy).
Qed.

(** [s = {p:1}], [{x:s, y:s}] against [{x:{p:1}, y:{p:2}}]. *)
Lemma shared_expected_masks_partner_witness :
  assertEquals 2 heap_shared "t" (VRef 0) (VRef 2) [] new_Map
  = Some (Returned "t: Pass!" [(VRef 0, VRef 2); (VRef 1, VRef 3)]).
Proof.
  apply (shared_expected_masks_partner 1 heap_shared "t" 0 2 1 "x" "y"
           (VRef 3) (VRef 4) "t: Pass!");
    try reflexivity; discriminate.
Defined.

(* ================================================================= *)
(** ** The earlier comparator of [src/index.js] *)

Lemma bind_none {St A B} (c : M St A) (k : A -> M St B) st :
  c st = None -> bind c k st = None.
Proof. unfold bind. now intros ->. Qed.

Ltac legacy_step :=
  match goal with
  | |- context [bind ?c ?k ?st] =>
      rewrite (bind_returned c k st tt st) by reflexivity
  end.

(** Two values of the same [typeof] other than "object": the earlier
    comparator too compares them by [===] alone; its pass string prints
    the two values. *)
Theorem Legacy_primitives_by_strict_equality fuel h msg e a kt :
  typeof e = typeof a -> typeof a <> "object" ->
  Legacy.assertEquals (S fuel) h msg e a kt tt
  = if e === a
    then Some (Returned (msg ++ ": Pass! " ++ quoted (ToString h e)
                             ++ " equals " ++ quoted (ToString h a)) tt)
    else Some (Thrown (mkExn Error ValueMismatch
           (msg ++ ": Expected " ++ quoted (ToString h e)
                ++ " but found " ++ quoted (ToString h a)))).
Proof.
  intros Hty Hobj. cbn [Legacy.assertEquals]. unfold Legacy.assertEqualsBody.
  rewrite Hty, String.eqb_refl. cbn [negb]. legacy_step.
  assert (Ha : Array_isArray h a = false)
    by (destruct a; try reflexivity; now elim Hobj).
  assert (He : Array_isArray h e = false).
  { destruct e; try reflexivity. elim Hobj. now rewrite <- Hty. }
  rewrite He, Ha. cbn [Bool.eqb negb]. legacy_step.
  apply String.eqb_neq in Hobj. rewrite Hobj. cbn [negb].
  destruct (e === a); reflexivity.
Qed.

(** Test 01 of [runAll]: "abc" against "abc". *)
Lemma Legacy_primitives_by_strict_equality_witness :
  Legacy.assertEquals 1 [] "Test 01" (VString "abc") (VString "abc") None tt
  = Some (Returned ("Test 01: Pass! " ++ quoted "abc"
                        ++ " equals " ++ quoted "abc") tt).
Proof.
  apply (Legacy_primitives_by_strict_equality 0 [] "Test 01"
           (VString "abc") (VString "abc") None);
    [reflexivity|discriminate].
Defined.

Lemma Legacy_forIn_leaves
  (recur : value -> value -> option string -> M unit string)
  h msg e a kt keys (st : unit) :
  (forall key, In key keys -> leaf_at h e a key = true) ->
  forIn keys (fun key =>
    let ek := getProp h e key in
    let ak := getProp h a key in
    if String.eqb (typeof ek) "object" || String.eqb (typeof ak) "object"
    then recur ek ak (Some (Legacy.tracePrefix kt ++ key)) ;; ret tt
    else
      throw_if (ek !== ak) Error ValueMismatch
        (msg ++ ": Expected " ++ Legacy.traceString kt ++ "." ++ key
             ++ " " ++ quoted (ToString h ek)
             ++ " but found " ++ quoted (ToString h ak))) st
  = match firstDifferent h e a keys with
    | None => Some (Returned tt st)
    | Some key =>
        Some (Thrown (mkExn Error ValueMismatch
          (msg ++ ": Expected " ++ Legacy.traceString kt ++ "." ++ key
               ++ " " ++ quoted (ToString h (getProp h e key))
               ++ " but found " ++ quoted (ToString h (getProp h a key)))))
    end.
Proof.
  unfold firstDifferent.
  induction keys as [|key rest IH]; intros Hleaf; [reflexivity|].
  cbn [forIn find]. cbv beta zeta.
  pose proof (Hleaf key (or_introl eq_refl)) as Hk. unfold leaf_at in Hk.
  apply negb_true_iff in Hk. rewrite Hk.
  destruct (getProp h e key !== getProp h a key) eqn:Ed.
  - now apply bind_thrown.
  - rewrite (bind_returned _ _ st tt st) by reflexivity.
    apply IH. intros k Hin. apply Hleaf. now right.
Qed.

Lemma Legacy_leaves_decided fuel h msg le la kt :
  Array_isArray h (VRef le) = Array_isArray h (VRef la) ->
  getProp h (VRef le) "length" === getProp h (VRef la) "length" = true ->
  (forall key, In key (forInKeys h (VRef le)) ->
     leaf_at h (VRef le) (VRef la) key = true) ->
  Legacy.assertEquals (S fuel) h msg (VRef le) (VRef la) kt tt
  = match firstDifferent h (VRef le) (VRef la) (forInKeys h (VRef le)) with
    | None =>
        Some (Returned (msg ++ ": Pass! " ++ quoted (ToString h (VRef le))
                            ++ " equals " ++ quoted (ToString h (VRef la)))
                       tt)
    | Some key =>
        Some (Thrown (mkExn Error ValueMismatch
          (msg ++ ": Expected " ++ Legacy.traceString kt ++ "." ++ key
               ++ " " ++ quoted (ToString h (getProp h (VRef le) key))
               ++ " but found "
               ++ quoted (ToString h (getProp h (VRef la) key)))))
    end.
Proof.
  intros Harr Hlength Hleaf.
  cbn [Legacy.assertEquals]. unfold Legacy.assertEqualsBody.
  cbn [typeof]. rewrite String.eqb_refl. cbn [negb]. legacy_step.
  rewrite Harr, Bool.eqb_reflx. cbn [negb]. legacy_step.
  cbn [strict_eq orb]. rewrite Hlength. cbn [negb].
  destruct (firstDifferent h (VRef le) (VRef la) (forInKeys h (VRef le)))
    as [key|] eqn:E.
  - apply bind_thrown. do 2 legacy_step.
    now rewrite (Legacy_forIn_leaves _ h msg (VRef le) (VRef la) kt _ _ Hleaf), E.
  - match goal with
    | |- bind ?c ?k ?st = _ => rewrite (bind_returned c k st tt tt)
    end; [reflexivity|].
    do 2 legacy_step.
    now rewrite (Legacy_forIn_leaves _ h msg (VRef le) (VRef la) kt _ _ Hleaf), E.
Qed.

(** Two composites of the same shape and strictly equal [length] whose
    values under the keys of expected are primitives on both sides, no
    own key of either being the name of a member of [Object.prototype]:
    the earlier comparator is decided by the first key of expected under
    which the two values are not strictly equal, and fails there as a
    ValueMismatch whose path is the key trace, printed as "undefined" at
    the top level, a dot and the key.  The numbers of keys are not
    compared: keys that only actual has go unnoticed. *)
Theorem Legacy_leaves_by_first_difference fuel h msg le la kt :
  own_keys_plain h (VRef le) = true -> own_keys_plain h (VRef la) = true ->
  Array_isArray h (VRef le) = Array_isArray h (VRef la) ->
  getProp h (VRef le) "length" === getProp h (VRef la) "length" = true ->
  (forall key, In key (forInKeys h (VRef le)) ->
     leaf_at h (VRef le) (VRef la) key = true) ->
  Legacy.assertEquals (S fuel) h msg (VRef le) (VRef la) kt tt
  = match firstDifferent h (VRef le) (VRef la) (forInKeys h (VRef le)) with
    | None =>
        Some (Returned (msg ++ ": Pass! " ++ quoted (ToString h (VRef le))
                            ++ " equals " ++ quoted (ToString h (VRef la)))
                       tt)
    | Some key =>
        Some (Thrown (mkExn Error ValueMismatch
          (msg ++ ": Expected " ++ Legacy.traceString kt ++ "." ++ key
               ++ " " ++ quoted (ToString h (getProp h (VRef le) key))
               ++ " but found "
               ++ quoted (ToString h (getProp h (VRef la) key)))))
    end.
Proof. intros _ _. apply Legacy_leaves_decided. Qed.

(** [{a:'a'}] against [{a:'a', c:'c'}]: the key [c] goes unnoticed. *)
Lemma Legacy_leaves_by_first_difference_witness :
  Legacy.assertEquals 1 heap_keys "t" (VRef 0) (VRef 1) None tt
  = Some (Returned ("t: Pass! " ++ quoted "[object Object]"
                        ++ " equals " ++ quoted "[object Object]") tt).
Proof.
  apply (Legacy_leaves_by_first_difference 0 heap_keys "t" 0 1 None).
  - reflexivity.
  - reflexivity.
  - reflexivity.
  - reflexivity.
  - intros key [<-|[]]. reflexivity.
Defined.

(** On two distinct composites of the same shape, with strictly equal
    [length], as many keys and primitives under the keys of expected,
    no own key of either being the name of a member of
    [Object.prototype], the two comparators accept the same pairs. *)
Theorem comparators_agree_on_leaves fuel h msg le la kt :
  own_keys_plain h (VRef le) = true -> own_keys_plain h (VRef la) = true ->
  le <> la ->
  Array_isArray h (VRef le) = Array_isArray h (VRef la) ->
  getProp h (VRef le) "length" === getProp h (VRef la) "length" = true ->
  length (Object_keys h (VRef le)) = length (Object_keys h (VRef la)) ->
  (forall key, In key (forInKeys h (VRef le)) ->
     leaf_at h (VRef le) (VRef la) key = true) ->
  (exists s st,
      assertEquals (S fuel) h msg (VRef le) (VRef la) [] new_Map
      = Some (Returned s st))
  <->
  (exists s st,
      Legacy.assertEquals (S fuel) h msg (VRef le) (VRef la) kt tt
      = Some (Returned s st)).
Proof.
  intros _ _ Hne Harr Hlength Hcount Hleaf.
  rewrite (leaves_decided fuel h msg le la [] new_Map
             Hne (Map_has_new _) (Map_has_new _) Harr Hlength Hcount Hleaf).
  rewrite (Legacy_leaves_decided fuel h msg le la kt
             Harr Hlength Hleaf).
  destruct (firstDifferent h (VRef le) (VRef la) (forInKeys h (VRef le)))
    as [key|].
  - split; intros (s0 & st & H); discriminate.
  - split; intros _; eauto.
Qed.

(** [{a:"x"}] against [{a:1}]: both comparators reject. *)
Lemma comparators_agree_on_leaves_witness :
  (exists s st,
      assertEquals 1 heap_leaf_types "t" (VRef 0) (VRef 1) [] new_Map
      = Some (Returned s st))
  <->
  (exists s st,
      Legacy.assertEquals 1 heap_leaf_types "t" (VRef 0) (VRef 1) None tt
      = Some (Returned s st)).
Proof.
  apply (comparators_agree_on_leaves 0 heap_leaf_types "t" 0 1 None).
  - reflexivity.
  - reflexivity.
  - discriminate.
  - reflexivity.
  - reflexivity.
  - reflexivity.
  - intros key [<-|[]]. reflexivity.
Defined.

(** *** Cycles *)

(** An object whose first property holds the object itself sends the
    earlier comparator into a descent without end, also when the object
    is compared with itself: no fuel gives an outcome. *)
Theorem Legacy_self_reference_diverges fuel h msg le la key re ra kt :
  deref h le = OObject ((key, VRef le) :: re) ->
  deref h la = OObject ((key, VRef la) :: ra) ->
  getProp h (VRef le) "length" === getProp h (VRef la) "length" = true ->
  Legacy.assertEquals fuel h msg (VRef le) (VRef la) kt tt = None.
Proof.
  intros Hpe Hpa Hlength. revert kt.
  induction fuel as [|fuel IH]; intros kt; [reflexivity|].
  cbn [Legacy.assertEquals]. unfold Legacy.assertEqualsBody.
  cbn [typeof]. rewrite String.eqb_refl. cbn [negb]. legacy_step.
  unfold Array_isArray at 1 2. rewrite Hpe, Hpa. cbn [Bool.eqb negb].
  legacy_step. cbn [strict_eq orb]. rewrite Hlength. cbn [negb].
  assert (Ek : getProp h (VRef le) key = VRef le)
    by (unfold getProp; rewrite Hpe; cbn; now rewrite String.eqb_refl).
  assert (Ak : getProp h (VRef la) key = VRef la)
    by (unfold getProp; rewrite Hpa; cbn; now rewrite String.eqb_refl).
  unfold forInKeys. rewrite Hpe. cbn [map fst forIn].
  rewrite Ek, Ak. cbn [typeof]. rewrite String.eqb_refl. cbn [orb].
  apply bind_none. do 2 legacy_step. do 2 apply bind_none. apply IH.
Qed.

(** [a = {self: a}] against [c = {self: c}], Test 13 of [runAll]. *)
Lemma Legacy_self_reference_diverges_witness :
  Legacy.assertEquals 5 heap_self "Test 13" (VRef 0) (VRef 1) None tt = None.
Proof.
  apply (Legacy_self_reference_diverges 5 heap_self "Test 13" 0 1 "self"
           [] [] None); reflexivity.
Defined.

(** *** Heaps without cycles *)

(** In a heap whose references point forward, what an object holds lies
    further on in the heap. *)
Lemma points_forward_refs h l l' :
  points_forward h = true -> l < length h ->
  In l' (refs_of (deref h l)) -> l < l'.
Proof.
  unfold points_forward. intros Hpf Hl Hin.
  rewrite forallb_forall in Hpf.
  assert (Hmem : In (l, deref h l) (combine (seq 0 (length h)) h)).
  { replace (l, deref h l)
      with (nth l (combine (seq 0 (length h)) h) (0, OObject [])).
    - apply nth_In. rewrite length_combine, length_seq. lia.
    - rewrite combine_nth by now rewrite length_seq.
      now rewrite seq_nth by exact Hl. }
  specialize (Hpf _ Hmem). cbn [fst snd] in Hpf.
  rewrite forallb_forall in Hpf. specialize (Hpf l' Hin).
  now apply Nat.ltb_lt in Hpf.
Qed.

Lemma lookupProp_ref_in key props l' :
  lookupProp key props = VRef l' -> In (VRef l') (map snd props).
Proof.
  induction props as [|[k v] rest IH]; cbn [lookupProp map snd In].
  - discriminate.
  - destruct (String.eqb k key); [now left|]. intros H. right. now apply IH.
Qed.

Lemma getProp_ref_in h l key l' :
  getProp h (VRef l) key = VRef l' -> In l' (refs_of (deref h l)).
Proof.
  unfold getProp, refs_of. intros H. apply in_flat_map.
  exists (VRef l'). split; [|now left].
  destruct (deref h l) as [props|elems].
  - now apply lookupProp_ref_in with key.
  - destruct (String.eqb key "length"); [discriminate|].
    destruct (index_of_key key) as [i|]; [|discriminate].
    destruct (Nat.lt_ge_cases i (length elems)) as [Hi|Hi].
    + rewrite <- H. now apply nth_In.
    + rewrite nth_overflow in H by exact Hi. discriminate.
Qed.

(** Descending from an object of such a heap leaves less to descend. *)
Lemma remaining_descends h l key f :
  points_forward h = true -> l < length h ->
  remaining h (VRef l) < S f ->
  remaining h (getProp h (VRef l) key) < f.
Proof.
  intros Hpf Hl Hf. cbn [remaining] in Hf.
  destruct (getProp h (VRef l) key) as [| |b|x|s|l'] eqn:E;
    cbn [remaining]; try lia.
  apply getProp_ref_in in E.
  pose proof (points_forward_refs h l l' Hpf Hl E). lia.
Qed.

Lemma Legacy_assertEqualsBody_has_outcome recur h msg e a kt f :
  points_forward h = true ->
  (forall e' a' kt', remaining h e' < f -> recur e' a' kt' tt <> None) ->
  remaining h e < S f ->
  Legacy.assertEqualsBody recur h msg e a kt tt <> None.
Proof.
  intros Hpf Hrec Hf. unfold Legacy.assertEqualsBody.
  apply bind_has_outcome; [apply throw_if_has_outcome|].
  intros u1 st1 H1. apply throw_if_returned in H1. destruct H1 as [_ ->].
  apply bind_has_outcome; [apply throw_if_has_outcome|].
  intros u2 st2 H2. apply throw_if_returned in H2. destruct H2 as [_ ->].
  apply bind_has_outcome; [|discriminate].
  destruct (negb (String.eqb (typeof a) "object"));
    [apply throw_if_has_outcome|].
  apply bind_has_outcome.
  { destruct ((e === VNull) || (a === VNull));
      [apply throw_if_has_outcome|discriminate]. }
  intros u3 [] _.
  apply bind_has_outcome; [apply throw_if_has_outcome|].
  intros u4 [] _.
  destruct e as [| |b|x|s|l]; try discriminate.
  destruct (Nat.lt_ge_cases l (length h)) as [Hin|Hout].
  - apply forIn_has_outcome with (P := fun _ => True); [|exact I].
    intros key [] _ _. cbv beta zeta.
    destruct (String.eqb (typeof (getProp h (VRef l) key)) "object"
              || String.eqb (typeof (getProp h a key)) "object").
    + pose proof (Hrec (getProp h (VRef l) key) (getProp h a key)
                       (Some (Legacy.tracePrefix kt ++ key))
                       (remaining_descends h l key f Hpf Hin Hf)) as Hr.
      destruct (recur (getProp h (VRef l) key) (getProp h a key)
                      (Some (Legacy.tracePrefix kt ++ key)) tt)
        as [[s' []|x]|] eqn:Er.
      * right. exists tt, tt. split; [|exact I].
        now rewrite (bind_returned _ _ _ _ _ Er).
      * left. exists x. now apply bind_thrown.
      * contradiction.
    + destruct (getProp h (VRef l) key !== getProp h a key).
      * left. eexists. reflexivity.
      * right. exists tt, tt. split; [reflexivity|exact I].
  - rewrite (forInKeys_outside h l Hout). discriminate.
Qed.

Lemma Legacy_assertEquals_has_outcome fuel h msg e a kt :
  points_forward h = true -> remaining h e < fuel ->
  Legacy.assertEquals fuel h msg e a kt tt <> None.
Proof.
  intros Hpf. revert e a kt.
  induction fuel as [|fuel IH]; intros e a kt Hf; [lia|].
  cbn [Legacy.assertEquals].
  apply Legacy_assertEqualsBody_has_outcome with (f := fuel);
    [exact Hpf| |exact Hf].
  intros e' a' kt' Hr. now apply IH.
Qed.

Lemma remaining_le_heap h v : remaining h v <= length h.
Proof. destruct v; cbn [remaining]; lia. Qed.

(** On a heap whose references point forward, which has no reference
    cycle, the earlier runner returns a string for every test case, with
    every fuel above the number of objects of the heap. *)
Theorem Legacy_runTest_returns_string_acyclic fuel h tc :
  points_forward h = true -> length h < fuel ->
  exists s, Legacy.runTest fuel h tc tt = Some (Returned s tt).
Proof.
  intros Hpf Hf. unfold Legacy.runTest, tryCatch.
  pose proof (Legacy_assertEquals_has_outcome fuel h (message tc)
                (expected tc) (actual tc) None Hpf) as Hout.
  destruct (Legacy.assertEquals fuel h (message tc) (expected tc)
                                (actual tc) None tt) as [[s []|x]|].
  - now exists s.
  - now exists (exn_message x).
  - exfalso. apply Hout; [|reflexivity].
    pose proof (remaining_le_heap h (expected tc)). lia.
Qed.

(** The heap of [{x:s, y:s}] and [{x:{p:1}, y:{p:2}}] has five objects. *)
Lemma Legacy_runTest_returns_string_acyclic_witness :
  exists s,
    Legacy.runTest 6 heap_shared (mkTestCase "t" (VRef 0) (VRef 2)) tt
    = Some (Returned s tt).
Proof.
  apply (Legacy_runTest_returns_string_acyclic 6 heap_shared
           (mkTestCase "t" (VRef 0) (VRef 2)));
    [reflexivity|cbn; lia].
Defined.

(** ** The key scan in general *)

(** When expected is an object with more own keys than the object
    actual, the two are distinct and unvisited, their [length]
    properties are strictly equal and no key of expected is the name of
    a member of [Object.prototype], the comparison fails as a MissingKey
    at the first key of expected, in enumeration order, that reads
    undefined in actual, with the dotted path to that key in the message.
    When no property of actual has the value undefined, that key is the
    first key of expected that actual does not have. *)
Theorem key_scan_missing_key (fuel : nat) (h : heap) (msg : string)
  (le la : loc) (pe pa : list (string * value)) (kt : list string)
  (visited : Map) :
  deref h le = OObject pe -> deref h la = OObject pa ->
  le <> la ->
  Map_has (VRef le) visited = false -> Map_has (VRef la) visited = false ->
  lookupProp "length" pe === lookupProp "length" pa = true ->
  NoDup (map fst pe) -> plain_keys (map fst pe) = true ->
  length pa < length pe ->
  exists key,
    firstUndefined h (VRef la) (map fst pe) = Some key
    /\ (all_defined pa = true ->
        firstAbsent (map fst pa) (map fst pe) = Some key)
    /\ assertEquals (S fuel) h msg (VRef le) (VRef la) kt visited
       = Some (Thrown (mkExn Error MissingKey
            (msg ++ ": Expected " ++ join_dot (kt ++ [key])%list
                 ++ " but was not found"))).
Proof.
  intros Hpe Hpa Hne HseenE HseenA Hlength Hnd _ Hlt.
  destruct (key_scan_expected_larger fuel h msg le la pe pa kt visited
              Hpe Hpa Hne HseenE HseenA Hlength Hnd Hlt)
    as (key & Hkey & Hrun).
  exists key. split; [exact Hkey|]. split; [|exact Hrun].
  intros Hd. now rewrite <- (firstUndefined_firstAbsent h la pa _ Hpa Hd).
Qed.

(** [{a:'a', c:'c'}] against [{a:'a'}]: MissingKey at [c]. *)
Lemma key_scan_missing_key_witness :
  assertEquals 1 heap_keys "t" (VRef 1) (VRef 0) [] new_Map
  = Some (Thrown (mkExn Error MissingKey
       "t: Expected c but was not found")).
Proof.
  destruct (key_scan_missing_key 0 heap_keys "t" 1 0
              [("a", VString "a"); ("c", VString "c")]
              [("a", VString "a")] [] new_Map)
    as (key & Hkey & _ & Hrun).
  - reflexivity.
  - reflexivity.
  - discriminate.
  - reflexivity.
  - reflexivity.
  - reflexivity.
  - repeat constructor; cbn; intuition discriminate.
  - reflexivity.
  - cbn. lia.
  - cbn in Hkey. inversion Hkey; subst key. exact Hrun.
Defined.

(** When actual is an object with more own keys than the object
    expected, the two are distinct and unvisited, their [length]
    properties are strictly equal and no key of actual is the name of a
    member of [Object.prototype], the comparison fails as an
    UnexpectedKey at the first key of actual, in enumeration order, that
    reads undefined in expected, with the dotted path to that key in the
    message.  When no property of expected has the value undefined, that
    key is the first key of actual that expected does not have. *)
Theorem key_scan_unexpected_key (fuel : nat) (h : heap) (msg : string)
  (le la : loc) (pe pa : list (string * value)) (kt : list string)
  (visited : Map) :
  deref h le = OObject pe -> deref h la = OObject pa ->
  le <> la ->
  Map_has (VRef le) visited = false -> Map_has (VRef la) visited = false ->
  lookupProp "length" pe === lookupProp "length" pa = true ->
  NoDup (map fst pa) -> plain_keys (map fst pa) = true ->
  length pe < length pa ->
  exists key,
    firstUndefined h (VRef le) (map fst pa) = Some key
    /\ (all_defined pe = true ->
        firstAbsent (map fst pe) (map fst pa) = Some key)
    /\ assertEquals (S fuel) h msg (VRef le) (VRef la) kt visited
       = Some (Thrown (mkExn Error UnexpectedKey
            (msg ++ ": Found unexpected " ++ join_dot (kt ++ [key])%list))).
Proof.
  intros Hpe Hpa Hne HseenE HseenA Hlength Hnd _ Hlt.
  destruct (key_scan_actual_larger fuel h msg le la pe pa kt visited
              Hpe Hpa Hne HseenE HseenA Hlength Hnd Hlt)
    as (key & Hkey & Hrun).
  exists key. split; [exact Hkey|]. split; [|exact Hrun].
  intros Hd. now rewrite <- (firstUndefined_firstAbsent h le pe _ Hpe Hd).
Qed.

(** [{a: undefined}] against [{a:1, b:2}]: UnexpectedKey at [a], which
    reads undefined in expected. *)
Lemma key_scan_unexpected_key_witness :
  assertEquals 1 heap_undefined_key "t" (VRef 0) (VRef 1) [] new_Map
  = Some (Thrown (mkExn Error UnexpectedKey "t: Found unexpected a")).
Proof.
  destruct (key_scan_unexpected_key 0 heap_undefined_key "t" 0 1
              [("a", VUndefined)]
              [("a", num 1); ("b", num 2)] [] new_Map)
    as (key & Hkey & _ & Hrun).
  - reflexivity.
  - reflexivity.
  - discriminate.
  - reflexivity.
  - reflexivity.
  - reflexivity.
  - repeat constructor; cbn; intuition discriminate.
  - reflexivity.
  - cbn. lia.
  - cbn in Hkey. inversion Hkey; subst key. exact Hrun.
Defined.
